(** * sql-to-rest: the statement IR, the processors and the HTTP renderer

    A shallow embedding of the TypeScript sources

    - [processor/index.ts]   ([processSql], [processStatement]),
    - [processor/insert.ts]  ([processInsertStatement]),
    - [processor/update.ts]  ([processUpdateStatement], [validateBasicFilters]),
    - [processor/delete.ts]  ([processDeleteStatement], [validateBasicFilters]),
    - [renderers/http.ts]    ([renderHttp], [formatSelect], [formatInsert],
                              [formatUpdate], [formatDelete], [renderFilterRoot]),

    followed by the properties of the specification that concern them.

    Conventions of the embedding:
    - a thrown error is the [Err] branch of [result]; statements run in
      sequence are chained with [let* x := e in k];
    - a [URLSearchParams] object is the ordered list of its (key, value)
      pairs, with [append] and [set] as the URL standard defines them;
    - a JavaScript object used as a record of columns is a [gmap string _];
    - what these files import from files outside the sources is a field of a
      class: [RendererUtil] has [renderFilter], [renderTargets] and
      [uriEncodeParams] of [renderers/util.ts]; [Imports] has
      [processWhereClause], [processSelectStatement], [getParsingErrorHint]
      and the SQL parser [parseQuery].  Every property is proved for all
      instances of the two classes. *)

From Stdlib Require Import ZArith DecimalString DecimalPos DecimalZ Ascii.
From stdpp Require Import gmap strings list fin_maps.

Local Open Scope string_scope.
Local Open Scope list_scope.
Local Open Scope stdpp_scope.
Set Warnings "-register-all".

(** ** Errors and results *)

(** The error classes of [errors.ts].  [ParsingError] carries the message,
    the hint and the properties copied from the parser's error (its cursor
    position); [OtherError] is an error of the parser that has no
    [cursorPosition] and is re-thrown unchanged by [processSql]. *)
Inductive Error : Type :=
  | ParsingError (message hint : string) (cursorPosition : Z)
  | UnsupportedError (message : string)
  | UnimplementedError (message : string)
  | RenderError (message : string)
  | OtherError (message : string).

Inductive result (A : Type) : Type :=
  | Ok (a : A)
  | Err (e : Error).
Arguments Ok {A} a.
Arguments Err {A} e.

Definition bind {A B : Type} (r : result A) (k : A -> result B) : result B :=
  match r with
  | Ok a => k a
  | Err e => Err e
  end.

Notation "'let*' x ':=' e 'in' k" := (bind e (fun x => k))
  (at level 10, x name, e at level 100, k at level 200).
Notation "'check' e 'in' k" := (bind e (fun _ => k))
  (at level 10, e at level 100, k at level 200).

(** [for (const x of xs) { ... }] over a body that may throw and that
    updates an accumulator. *)
Section ForEach.
Context {A S : Type}.
Variable body : S -> A -> result S.

Fixpoint forEach (xs : list A) (s : S) : result S :=
  match xs with
  | [] => Ok s
  | x :: xs' => let* s' := body s x in forEach xs' s'
  end.
End ForEach.

Definition isUnsupported {A : Type} (r : result A) : bool :=
  match r with Err (UnsupportedError _) => true | _ => false end.

(** ** The statement IR ([processor/types.ts]) *)

(** The operators of a column filter, under [Op.] so that [eq], [lt] and
    [gt] keep their usual meaning outside. *)
Module Op.
Inductive t : Type :=
  | eq | neq | gt | gte | lt | lte | like | ilike | is_ | in_
  | fts | plfts | phfts | wfts | cs | cd | ov | sl | sr | nxr | nxl | adj.

#[global] Instance eq_dec : EqDecision t.
Proof. solve_decision. Defined.

Definition name (o : t) : string :=
  match o with
  | eq => "eq" | neq => "neq" | gt => "gt" | gte => "gte" | lt => "lt"
  | lte => "lte" | like => "like" | ilike => "ilike" | is_ => "is"
  | in_ => "in" | fts => "fts" | plfts => "plfts" | phfts => "phfts"
  | wfts => "wfts" | cs => "cs" | cd => "cd" | ov => "ov" | sl => "sl"
  | sr => "sr" | nxr => "nxr" | nxl => "nxl" | adj => "adj"
  end.
End Op.

Abbreviation ColumnOperator := Op.t.

Inductive LogicalOperator : Type := and_ | or_.

(** A scalar atom: string, number, boolean or null.  An integer constant is
    kept as its value; a float constant is kept by the text the parser
    hands over. *)
Inductive Scalar : Type :=
  | SString (s : string)
  | SNumber (n : Z)
  | SFloat (text : string)
  | SBool (b : bool)
  | SNull.

(** What the processors put in a row of INSERT and in the mapping of SET:
    a scalar, or the [boolval] node of a boolean constant, which the code
    hands over as it is: the object [{boolval: true}], or [{}] when the
    parser leaves the inner key out. *)
Inductive Value : Type :=
  | VScalar (a : Scalar)
  | VBoolval (boolval : option bool).

Coercion VScalar : Scalar >-> Value.


(** A number as [toString] shows it: a safe integer, which is printed with
    its decimal digits, or any other number (a fraction, an integer out of
    the safe range, NaN, an infinity), given by the text that [toString]
    prints for it. *)
Inductive JsNumber : Type :=
  | Integer (n : Z) (safe : Is_true (Z.abs n <=? 2 ^ 53 - 1)%Z)
  | OtherNumber (text : string).

Inductive FilterValue : Type :=
  | Atom (a : Scalar)
  | Atoms (l : list Scalar).

Inductive Filter : Type :=
  | ColumnFilter (column : string) (operator : ColumnOperator)
      (negate : bool) (value : FilterValue)
  | LogicalFilter (operator : LogicalOperator) (negate : bool)
      (values : list Filter).

Inductive AggregateFunction : Type := agg_count | agg_sum | agg_avg | agg_min | agg_max.

Inductive Target : Type :=
  | ColumnTarget (column : string) (alias cast : option string)
  | ResourceTarget (relation : string) (targets : list Target)
  | AggregateTarget (fn : AggregateFunction) (column : string)
      (alias : option string).

Inductive Direction : Type := asc | desc.
Inductive Nulls : Type := nulls_first | nulls_last.

Record Sort : Type := mkSort {
  sort_column : string;
  sort_direction : option Direction;
  sort_nulls : option Nulls
}.

Record Limit : Type := mkLimit {
  count : option JsNumber;
  offset : option JsNumber
}.

Record Select : Type := mkSelect {
  select_from : string;
  select_targets : list Target;
  select_filter : option Filter;
  select_sorts : option (list Sort);
  select_limit : option Limit
}.

Record Insert : Type := mkInsert {
  into : string;
  columns : list string;
  values : list (list Value);
  insert_returning : option (list string)
}.

Record Update : Type := mkUpdate {
  table : string;
  set : gmap string Value;
  update_filter : option Filter;
  update_returning : option (list string)
}.

Record Delete : Type := mkDelete {
  delete_from : string;
  delete_filter : option Filter;
  delete_returning : option (list string)
}.

Inductive Statement : Type :=
  | StSelect (s : Select)
  | StInsert (i : Insert)
  | StUpdate (u : Update)
  | StDelete (d : Delete).

(** Induction over a filter tree and the trees below it. *)
Section FilterInd.
Variable P : Filter -> Prop.
Hypothesis Hcol : forall c o n v, P (ColumnFilter c o n v).
Hypothesis Hlog : forall o n vs, Forall P vs -> P (LogicalFilter o n vs).

Fixpoint Filter_nested_ind (f : Filter) : P f :=
  match f with
  | ColumnFilter c o n v => Hcol c o n v
  | LogicalFilter o n vs =>
      Hlog o n vs
        ((fix all (l : list Filter) : Forall P l :=
            match l with
            | [] => List.Forall_nil P
            | x :: l' => List.Forall_cons P x l' (Filter_nested_ind x) (all l')
            end) vs)
  end.
End FilterInd.

(** ** JavaScript values used by the renderer *)

(** [Array.prototype.join]. *)
Definition join (sep : string) (l : list string) : string := String.concat sep l.

(** The decimal digits of an integer, with a minus sign below zero. *)
Definition decimalText (n : Z) : string :=
  NilZero.string_of_int (Z.to_int n).

(** [Number.prototype.toString]. *)
Definition number_toString (x : JsNumber) : string :=
  match x with
  | Integer n _ => decimalText n
  | OtherNumber text => text
  end.

(** A row object: a property read past the end of the row is [undefined],
    which is [None] here. *)
Abbreviation JsObject := (gmap string (option Value)).

(** [obj[key] = value] on an object that was created as [{}].  The object
    is followed through its own properties and through whether its
    prototype has been set to null.  While [Object.prototype] is in the
    chain, the key [__proto__] is the accessor inherited from it: the
    assignment adds no property; it sets the prototype to null when the
    value is null, takes an object value as the new prototype, under which
    [Object.prototype] stays in the chain, and does nothing with any other
    value.  Every other assignment creates or overwrites an own
    property. *)
Definition assign {V : Type} (isNull : V -> bool)
    (obj : gmap string V * bool) (key : string) (value : V)
  : gmap string V * bool :=
  if String.eqb key "__proto__" && negb obj.2
  then (obj.1, isNull value)
  else (<[key := value]> obj.1, obj.2).

Definition isNullValue (v : Value) : bool :=
  match v with
  | VScalar SNull => true
  | _ => false
  end.

Definition isNullEntry (v : option Value) : bool :=
  match v with
  | Some v' => isNullValue v'
  | None => false
  end.

(** The [body] of a request: one object, or an array of objects. *)
Inductive Body : Type :=
  | BodyObject (o : JsObject)
  | BodyArray (l : list JsObject).

Inductive Method : Type := GET | POST | PATCH | DELETE.

Record HttpRequest : Type := mkHttpRequest {
  method : Method;
  path : string;
  params : list (string * string);
  body : option Body;
  fullPath : string
}.

(** ** URLSearchParams *)

Definition URLSearchParams : Type := list (string * string).

Definition params_append (ps : URLSearchParams) (key value : string)
  : URLSearchParams :=
  ps ++ [(key, value)].

(** [set]: when the key is present, the first pair with that key takes the
    value and the other pairs with that key are removed; otherwise the pair
    is appended. *)
Fixpoint params_set (ps : URLSearchParams) (key value : string)
  : URLSearchParams :=
  match ps with
  | [] => [(key, value)]
  | (k, v) :: rest =>
      if String.eqb k key
      then (k, value) :: List.filter (fun kv => negb (String.eqb kv.1 key)) rest
      else (k, v) :: params_set rest key value
  end.

(** [getAll]: the values of the pairs with that key, in order. *)
Definition params_getAll (ps : URLSearchParams) (key : string) : list string :=
  map snd (List.filter (fun kv => String.eqb kv.1 key) ps).

(** ** The HTTP renderer ([renderers/http.ts]) *)

(** What [renderers/http.ts] imports from [renderers/util.ts]. *)
Class RendererUtil : Type := {
  renderFilter : Filter -> string * string;
  renderTargets : list Target -> string;
  uriEncodeParams : URLSearchParams -> string
}.

Section Translator.

Context {util : RendererUtil}.

(** The filter-root routine: a non-negated [and] is unfolded into its
    children, anything else is appended as one pair. *)
Fixpoint renderFilterRoot (ps : URLSearchParams) (f : Filter)
  : URLSearchParams :=
  match f with
  | LogicalFilter and_ false values =>
      fold_left renderFilterRoot values ps
  | _ =>
      let '(key, value) := renderFilter f in
      params_append ps key value
  end.

(** The [fullPath] getter, written the same way in the four formatters. *)
Definition get_fullPath (path : string) (ps : URLSearchParams) : string :=
  if decide (0 < length ps)
  then path +:+ "?" +:+ uriEncodeParams ps
  else path.

Definition direction_name (d : Direction) : string :=
  match d with asc => "asc" | desc => "desc" end.

Definition nulls_name (n : Nulls) : string :=
  match n with nulls_first => "first" | nulls_last => "last" end.

(** The body of the loop over [sorts]. *)
Definition sortValue (sort : Sort) : string :=
  let value := sort_column sort in
  let value :=
    match sort_direction sort with
    | Some d => value +:+ "." +:+ direction_name d
    | None => value
    end in
  match sort_nulls sort with
  | Some n => value +:+ ".nulls" +:+ nulls_name n
  | None => value
  end.

(** The test that guards [params.set('select', ...)] in [formatSelect]. *)
Definition selectWanted (targets : list Target) : bool :=
  match targets with
  | [] => false
  | firstTarget :: _ =>
      match firstTarget with
      | ColumnTarget column _ _ =>
          negb (String.eqb column "*") || negb (length targets =? 1)%nat
      | _ => true
      end
  end.

Definition formatSelect (select : Select) : HttpRequest :=
  let ps : URLSearchParams := [] in
  let ps :=
    if selectWanted (select_targets select)
    then params_set ps "select" (renderTargets (select_targets select))
    else ps in
  let ps :=
    match select_filter select with
    | Some f => renderFilterRoot ps f
    | None => ps
    end in
  let ps :=
    match select_sorts select with
    | Some sorts =>
        let columns := map sortValue sorts in
        if decide (0 < length columns)
        then params_set ps "order" (join "," columns)
        else ps
    | None => ps
    end in
  let ps :=
    match select_limit select with
    | Some limit =>
        let ps :=
          match count limit with
          | Some c => params_set ps "limit" (number_toString c)
          | None => ps
          end in
        match offset limit with
        | Some o => params_set ps "offset" (number_toString o)
        | None => ps
        end
    | None => ps
    end in
  let path := "/" +:+ select_from select in
  {| method := GET; path := path; params := ps; body := None;
     fullPath := get_fullPath path ps |}.

(** [const obj = {}; columns.forEach((col, index) => { obj[col] = row[index] })]:
    the object with its state, and its own properties, which are what the
    body shows. *)
Definition buildRow (columns : list string) (row : list Value)
  : JsObject * bool :=
  fold_left
    (fun (obj : JsObject * bool) (ic : nat * string) =>
       assign isNullEntry obj ic.2 (row !! ic.1))
    (imap pair columns) (∅, false).

Definition rowObject (columns : list string) (row : list Value) : JsObject :=
  (buildRow columns row).1.

(** The RETURNING clause, written the same way in the three formatters. *)
Definition setReturning (ps : URLSearchParams) (returning : option (list string))
  : URLSearchParams :=
  match returning with
  | Some r =>
      if decide (0 < length r) then params_set ps "select" (join "," r) else ps
  | None => ps
  end.

Definition formatInsert (insert : Insert) : HttpRequest :=
  let ps : URLSearchParams := [] in
  let body := map (rowObject (columns insert)) (values insert) in
  let ps := setReturning ps (insert_returning insert) in
  let path := "/" +:+ into insert in
  {| method := POST; path := path; params := ps;
     body := Some (match body with
                   | [obj] => BodyObject obj
                   | _ => BodyArray body
                   end);
     fullPath := get_fullPath path ps |}.

Definition formatUpdate (update : Update) : HttpRequest :=
  let ps : URLSearchParams := [] in
  let ps := setReturning ps (update_returning update) in
  let ps :=
    match update_filter update with
    | Some f => renderFilterRoot ps f
    | None => ps
    end in
  let path := "/" +:+ table update in
  {| method := PATCH; path := path; params := ps;
     body := Some (BodyObject (Some <$> set update));
     fullPath := get_fullPath path ps |}.

Definition formatDelete (deleteStmt : Delete) : HttpRequest :=
  let ps : URLSearchParams := [] in
  let ps := setReturning ps (delete_returning deleteStmt) in
  let ps :=
    match delete_filter deleteStmt with
    | Some f => renderFilterRoot ps f
    | None => ps
    end in
  let path := "/" +:+ delete_from deleteStmt in
  {| method := DELETE; path := path; params := ps; body := None;
     fullPath := get_fullPath path ps |}.

Definition renderHttp (processed : Statement) : HttpRequest :=
  match processed with
  | StSelect s => formatSelect s
  | StInsert i => formatInsert i
  | StUpdate u => formatUpdate u
  | StDelete d => formatDelete d
  end.

End Translator.

(** ** The parse tree ([types/libpg-query.ts]), as far as the processors read it *)

(** An element of [ColumnRef.fields]: a [String] node or another node
    (the star of [*] is an [A_Star] node). *)
Inductive Field : Type :=
  | FString (sval : string)
  | FA_Star
  | FOther.

(** An [A_Const] node: which of the keys [sval], [ival], [fval], [boolval]
    and [Null] it has; the value of each of the first four is a nested
    object, from which the inner key of the same name may be missing
    ([Some None]). *)
Record A_ConstNode : Type := mkA_Const {
  c_sval : option (option string);
  c_ival : option (option Z);
  c_fval : option (option string);
  c_boolval : option (option bool);
  c_Null : bool
}.

(** A value node: the [val] of a [ResTarget], an item of a VALUES row. *)
Inductive Node : Type :=
  | ColumnRef (fields : list Field)
  | A_Const (c : A_ConstNode)
  | OtherNode.

(** An item of [cols], [targetList] and [returningList]: a [ResTarget]
    with its optional [name] and its [val], or a node of another kind.  Of
    an item of [cols] only the [name] is read. *)
Inductive ListItem : Type :=
  | ResTarget (name : option string) (val : Node)
  | OtherItem.

Record RangeVar : Type := mkRangeVar { relname : string }.

(** [Relations], with [primary.reference] the getter that returns
    [primary.name]. *)
Record Relations : Type := mkRelations {
  primary_name : string;
  joined : list string
}.

Definition primary_reference (r : Relations) : string := primary_name r.

(** A string is truthy when it is defined and not empty. *)
Definition truthy (o : option string) : bool :=
  match o with
  | Some s => negb (String.eqb s "")
  | None => false
  end.

(** [String.prototype.split('.')]: never empty, the empty string gives one
    empty piece. *)
Fixpoint split_dot (s : string) : list string :=
  match s with
  | EmptyString => [""]
  | String c rest =>
      if Ascii.eqb c "."%char
      then "" :: split_dot rest
      else match split_dot rest with
           | piece :: pieces => String c piece :: pieces
           | [] => [String c ""]
           end
  end.

(** ** The processors ([processor/*.ts]) *)

Section ParseTree.

(** The expression nodes of a WHERE clause, which [processor/filter.ts]
    walks, and the [SelectStmt] node, which [processor/select.ts] walks. *)
Variable WhereClause : Type.
Variable SelectStmt : Type.

Record InsertStmt : Type := mkInsertStmt {
  i_relation : option RangeVar;
  i_cols : option (list ListItem);
  i_selectStmt : option SelectStmt;
  i_returningList : option (list ListItem);
  i_onConflictClause : bool
}.

Record UpdateStmt : Type := mkUpdateStmt {
  u_relation : option RangeVar;
  u_targetList : option (list ListItem);
  u_whereClause : option WhereClause;
  u_returningList : option (list ListItem)
}.

Record DeleteStmt : Type := mkDeleteStmt {
  d_relation : option RangeVar;
  d_whereClause : option WhereClause;
  d_returningList : option (list ListItem)
}.

(** A statement node is an object with one key, its kind. *)
Inductive Stmt : Type :=
  | SelectStmtNode (s : SelectStmt)
  | InsertStmtNode (s : InsertStmt)
  | UpdateStmtNode (s : UpdateStmt)
  | DeleteStmtNode (s : DeleteStmt)
  | ExplainStmtNode
  | OtherStmtNode (key : string).

Record ParsedQuery : Type := mkParsedQuery { stmts : list Stmt }.

(** What [parseQuery] does: it returns the statements, or throws an error
    that has a message and, for a syntax error, a cursor position. *)
Inductive ParseOutcome : Type :=
  | Parsed (result : ParsedQuery)
  | ParseFailed (message : string) (cursorPosition : option Z).

End ParseTree.

Arguments mkInsertStmt {SelectStmt}.
Arguments i_relation {SelectStmt}.
Arguments i_cols {SelectStmt}.
Arguments i_selectStmt {SelectStmt}.
Arguments i_returningList {SelectStmt}.
Arguments i_onConflictClause {SelectStmt}.
Arguments mkUpdateStmt {WhereClause}.
Arguments u_relation {WhereClause}.
Arguments u_targetList {WhereClause}.
Arguments u_whereClause {WhereClause}.
Arguments u_returningList {WhereClause}.
Arguments mkDeleteStmt {WhereClause}.
Arguments d_relation {WhereClause}.
Arguments d_whereClause {WhereClause}.
Arguments d_returningList {WhereClause}.
Arguments SelectStmtNode {WhereClause SelectStmt}.
Arguments InsertStmtNode {WhereClause SelectStmt}.
Arguments UpdateStmtNode {WhereClause SelectStmt}.
Arguments DeleteStmtNode {WhereClause SelectStmt}.
Arguments ExplainStmtNode {WhereClause SelectStmt}.
Arguments OtherStmtNode {WhereClause SelectStmt}.
Arguments mkParsedQuery {WhereClause SelectStmt}.
Arguments stmts {WhereClause SelectStmt}.
Arguments Parsed {WhereClause SelectStmt}.
Arguments ParseFailed {WhereClause SelectStmt}.

(** What the processor files import from outside these sources: the walker
    of [processor/filter.ts], the [valuesLists] field of a [SelectStmt]
    node (each entry is the [List.items] of a row), the processor of
    [processor/select.ts], [getParsingErrorHint] of [errors.ts] and
    [parseQuery] of libpg-query. *)
Class Imports (WhereClause SelectStmt : Type) : Type := {
  processWhereClause : WhereClause -> Relations -> result Filter;
  valuesLists : SelectStmt -> option (list (list Node));
  processSelectStatement : SelectStmt -> result Select;
  getParsingErrorHint : string -> string;
  parseQuery : string -> ParseOutcome WhereClause SelectStmt
}.

Section Processor.

Context {WhereClause SelectStmt : Type}.
Context {imports : Imports WhereClause SelectStmt}.

(** The chain of tests on an [A_Const], written the same way for the VALUES
    of INSERT and the SET of UPDATE; [message] is the error of the last
    branch.  For [sval], [ival] and [fval] the inner value is taken; for
    [boolval] the test is on the outer key alone and [constValue.boolval],
    the nested object, is what is handed over. *)
Definition constValue (c : A_ConstNode) (message : string) : result Value :=
  match c_sval c with
  | Some (Some s) => Ok (VScalar (SString s))
  | _ =>
  match c_ival c with
  | Some (Some n) => Ok (VScalar (SNumber n))
  | _ =>
  match c_fval c with
  | Some (Some x) => Ok (VScalar (SFloat x))
  | _ =>
  match c_boolval c with
  | Some b => Ok (VBoolval b)
  | None =>
  if c_Null c then Ok (VScalar SNull)
  else Err (UnsupportedError message)
  end end end end.

(** [fields.map(...).join('.').split('.').pop()]. *)
Definition fieldText (field : Field) : string :=
  match field with
  | FString sval => sval
  | _ => ""
  end.

Definition columnName (fields : list Field) : option string :=
  last (split_dot (join "." (map fieldText fields))).

(** The loop over [returningList], written the same way in the three
    processors. *)
Definition returningStep (returning : list string) (returnTarget : ListItem)
  : result (list string) :=
  match returnTarget with
  | ResTarget _ (ColumnRef fields) =>
      let name := columnName fields in
      if truthy name
      then Ok (returning ++ [default "" name])
      else Ok returning
  | ResTarget _ _ =>
      Err (UnsupportedError "RETURNING clause only supports simple column names")
  | OtherItem =>
      Err (UnsupportedError "RETURNING clause only supports simple column names")
  end.

Definition processReturning (returningList : option (list ListItem))
  : result (option (list string)) :=
  match returningList with
  | Some l => let* returning := forEach returningStep l [] in Ok (Some returning)
  | None => Ok None
  end.

(** *** INSERT *)

Definition columnStep (columns : list string) (col : ListItem)
  : result (list string) :=
  match col with
  | ResTarget name _ =>
      if truthy name then Ok (columns ++ [default "" name]) else Ok columns
  | OtherItem =>
      Err (UnsupportedError "INSERT column specification must be a simple column name")
  end.

Definition valueStep (rowValues : list Value) (value : Node)
  : result (list Value) :=
  match value with
  | A_Const c =>
      let* v := constValue c "Unsupported constant type in INSERT values" in
      Ok (rowValues ++ [v])
  | _ =>
      Err (UnsupportedError
             "INSERT values must be constants (no expressions or subqueries)")
  end.

Definition rowStep (values : list (list Value)) (valueList : list Node)
  : result (list (list Value)) :=
  let* rowValues := forEach valueStep valueList [] in
  Ok (values ++ [rowValues]).

Definition processValues (selectStmt : option SelectStmt)
  : result (list (list Value)) :=
  match selectStmt with
  | Some s =>
      match valuesLists s with
      | Some lists => forEach rowStep lists []
      | None =>
          Err (UnsupportedError "INSERT ... SELECT statements are not supported")
      end
  | None => Ok []
  end.

Definition processInsertStatement (insertStmt : InsertStmt SelectStmt) : result Insert :=
  match i_relation insertStmt with
  | None => Err (UnsupportedError "INSERT statement must specify a table")
  | Some relation =>
      let tableName := relname relation in
      let* columns :=
        match i_cols insertStmt with
        | Some cols => forEach columnStep cols []
        | None => Ok []
        end in
      let* values := processValues (i_selectStmt insertStmt) in
      let* returning := processReturning (i_returningList insertStmt) in
      if i_onConflictClause insertStmt
      then Err (UnsupportedError "INSERT ... ON CONFLICT (upsert) is not supported")
      else Ok {| into := tableName; columns := columns; values := values;
                 insert_returning := returning |}
  end.

(** *** UPDATE and DELETE *)

Definition allowedOperators : list ColumnOperator :=
  [Op.eq; Op.neq; Op.gt; Op.gte; Op.lt; Op.lte].

(** [allowedOperators.includes(filter.operator)]. *)
Definition includes (l : list ColumnOperator) (o : ColumnOperator) : bool :=
  bool_decide (o ∈ l).

(** The message of the validator; [kind] is ["UPDATE"] in [update.ts] and
    ["DELETE"] in [delete.ts], the only difference between the two copies. *)
Definition basicOperatorsMessage (kind : string) : string :=
  kind +:+ " WHERE clause only supports basic operators: "
       +:+ join ", " (map Op.name allowedOperators).

Fixpoint validateBasicFilters (kind : string) (f : Filter) : result unit :=
  match f with
  | ColumnFilter _ operator _ _ =>
      if includes allowedOperators operator
      then Ok tt
      else Err (UnsupportedError (basicOperatorsMessage kind))
  | LogicalFilter _ _ values =>
      forEach (fun _ subFilter => validateBasicFilters kind subFilter) values tt
  end.

(** The WHERE clause, written the same way in the two processors. *)
Definition processWhere (kind : string) (tableName : string)
  (whereClause : option WhereClause) : result (option Filter) :=
  match whereClause with
  | Some w =>
      let relations := {| primary_name := tableName; joined := [] |} in
      let* f := processWhereClause w relations in
      check validateBasicFilters kind f in
      Ok (Some f)
  | None => Ok None
  end.

(** One turn of the loop over [targetList].  [setClause] is the object
    created as [{}], followed as in [assign]; the [set] of the result is
    its own properties. *)
Definition setStep (setClause : gmap string Value * bool) (target : ListItem)
  : result (gmap string Value * bool) :=
  match target with
  | ResTarget name val =>
      if truthy name then
        let columnName := default "" name in
        match val with
        | A_Const c =>
            let* v := constValue c "Unsupported constant type in UPDATE SET clause" in
            Ok (assign isNullValue setClause columnName v)
        | _ =>
            Err (UnsupportedError
                   "UPDATE SET clause only supports constant values (no expressions or subqueries)")
        end
      else Err (UnsupportedError "UPDATE SET clause must specify column names")
  | OtherItem =>
      Err (UnsupportedError "UPDATE SET clause must be simple column assignments")
  end.

Definition processUpdateStatement (updateStmt : UpdateStmt WhereClause) : result Update :=
  match u_relation updateStmt with
  | None => Err (UnsupportedError "UPDATE statement must specify a table")
  | Some relation =>
      let tableName := relname relation in
      match u_targetList updateStmt with
      | None => Err (UnsupportedError "UPDATE statement must have a SET clause")
      | Some targetList =>
          let* setClause := forEach setStep targetList (∅, false) in
          let* f := processWhere "UPDATE" tableName (u_whereClause updateStmt) in
          let* returning := processReturning (u_returningList updateStmt) in
          Ok {| table := tableName; set := setClause.1; update_filter := f;
                update_returning := returning |}
      end
  end.

Definition processDeleteStatement (deleteStmt : DeleteStmt WhereClause) : result Delete :=
  match d_relation deleteStmt with
  | None => Err (UnsupportedError "DELETE statement must specify a table")
  | Some relation =>
      let tableName := relname relation in
      let* f := processWhere "DELETE" tableName (d_whereClause deleteStmt) in
      let* returning := processReturning (d_returningList deleteStmt) in
      Ok {| delete_from := tableName; delete_filter := f;
            delete_returning := returning |}
  end.

(** *** The entry point ([processor/index.ts]) *)

(** [stmtType.replace(/Stmt$/, '')]. *)
Definition removeStmtSuffix (stmtType : string) : string :=
  let n := String.length stmtType in
  if decide (4 <= n) then
    if String.eqb (String.substring (n - 4) 4 stmtType) "Stmt"
    then String.substring 0 (n - 4) stmtType
    else stmtType
  else stmtType.

Definition processStatement (stmt : Stmt WhereClause SelectStmt) : result Statement :=
  match stmt with
  | SelectStmtNode s => let* r := processSelectStatement s in Ok (StSelect r)
  | InsertStmtNode s => let* r := processInsertStatement s in Ok (StInsert r)
  | UpdateStmtNode s => let* r := processUpdateStatement s in Ok (StUpdate r)
  | DeleteStmtNode s => let* r := processDeleteStatement s in Ok (StDelete r)
  | ExplainStmtNode =>
      Err (UnimplementedError
             "Explain statements are not yet implemented by the translator")
  | OtherStmtNode key =>
      Err (UnsupportedError
             (removeStmtSuffix key +:+ " statements are not supported"))
  end.

(** [processSql]: the body of the [try], then the [catch], which turns an
    error that has a [cursorPosition] into a [ParsingError] and re-throws
    any other error as it is. *)
Definition processSql (sql : string) : result Statement :=
  match parseQuery sql with
  | ParseFailed message (Some position) =>
      Err (ParsingError message (getParsingErrorHint message) position)
  | ParseFailed message None => Err (OtherError message)
  | Parsed result =>
      if decide (length (stmts result) = 0) then
        Err (UnsupportedError "Expected a statement, but received none")
      else if decide (1 < length (stmts result)) then
        Err (UnsupportedError "Expected a single statement, but received multiple")
      else
        match map processStatement (stmts result) with
        | statement :: _ => statement
        | [] => Err (OtherError "undefined")
        end
  end.

End Processor.


(** ** The words of the specification *)

(** The filters that the root of a query string shows as parameters of
    their own: a non-negated [and] stands for its children, each unfolded in
    turn; any other filter stands for itself. *)
Fixpoint rootFilters (f : Filter) : list Filter :=
  match f with
  | LogicalFilter and_ false values => flat_map rootFilters values
  | _ => [f]
  end.

Definition isPlainAnd (f : Filter) : bool :=
  match f with
  | LogicalFilter and_ false _ => true
  | _ => false
  end.

(** The pairs that the filter of a statement adds to the query string. *)
Definition filterParams {util : RendererUtil} (f : option Filter)
  : URLSearchParams :=
  match f with
  | Some g => map renderFilter (rootFilters g)
  | None => []
  end.

(** [occurs g f]: the filter [g] is [f] or lies somewhere below it. *)
Inductive occurs (g : Filter) : Filter -> Prop :=
  | occurs_here : occurs g g
  | occurs_below o n values f :
      f ∈ values -> occurs g f -> occurs g (LogicalFilter o n values).

(** The tree holds a column filter whose operator is not a basic one. *)
Definition containsNonBasic (f : Filter) : Prop :=
  exists column operator negate value,
    occurs (ColumnFilter column operator negate value) f
    /\ operator ∉ allowedOperators.

(** Every column filter of the tree has a basic operator. *)
Definition allBasic (f : Filter) : Prop :=
  forall column operator negate value,
    occurs (ColumnFilter column operator negate value) f ->
    operator ∈ allowedOperators.

(** The target lists for which [formatSelect] sets no [select]: the empty
    list, and a single column target of [*] whatever its alias and cast. *)
Definition loneStarOrEmpty (targets : list Target) : bool :=
  match targets with
  | [] => true
  | [ColumnTarget column _ _] => String.eqb column "*"
  | _ => false
  end.

(** The integer that a text denotes in decimal notation. *)
Definition readDecimal (s : string) : option Z :=
  option_map Z.of_int (NilZero.int_of_string s).

(** The canonical target list of [select *]. *)
Definition canonicalStar : list Target := [ColumnTarget "*" None None].

(** The index of the last occurrence of a column in the column list. *)
Fixpoint lastIndexOf (col : string) (cols : list string) : option nat :=
  match cols with
  | [] => None
  | c :: cols' =>
      match lastIndexOf col cols' with
      | Some i => Some (S i)
      | None => if String.eqb c col then Some 0 else None
      end
  end.

(** A RETURNING entry that is a [ResTarget] over a [ColumnRef]. *)
Definition isColumnRef (item : ListItem) : bool :=
  match item with
  | ResTarget _ (ColumnRef _) => true
  | _ => false
  end.

(** A field that is not a [String] node. *)
Definition notString (field : Field) : bool :=
  match field with
  | FString _ => false
  | _ => true
  end.

(** A RETURNING entry that is a column reference without any [String]
    segment. *)
Definition segmentless (item : ListItem) : bool :=
  match item with
  | ResTarget _ (ColumnRef fields) => forallb notString fields
  | _ => false
  end.

(** A name without a dot in it. *)
Fixpoint dotFree (s : string) : bool :=
  match s with
  | EmptyString => true
  | String c rest => negb (Ascii.eqb c "."%char) && dotFree rest
  end.

(** ** An instance of the functions of [renderers/util.ts] *)

Definition scalarText (a : Scalar) : string :=
  match a with
  | SString s => s
  | SNumber n => decimalText n
  | SFloat text => text
  | SBool true => "true"
  | SBool false => "false"
  | SNull => "null"
  end.

Definition valueText (v : FilterValue) : string :=
  match v with
  | Atom a => scalarText a
  | Atoms l => "(" +:+ join "," (map scalarText l) +:+ ")"
  end.

Definition notPrefix (negate : bool) : string :=
  if negate then "not." else "".

Definition logicalName (o : LogicalOperator) : string :=
  match o with and_ => "and" | or_ => "or" end.

(** Modelled from the spec: the nested form of a filter, which
    [renderers/util.ts] computes inside [renderFilter]; a column filter is
    [column.[not.]op.literal], a logical filter is [[not.]op(child,...)]. *)
Fixpoint spec_renderNested (f : Filter) : string :=
  match f with
  | ColumnFilter column operator negate value =>
      column +:+ "." +:+ notPrefix negate +:+ Op.name operator +:+ "."
             +:+ valueText value
  | LogicalFilter operator negate values =>
      notPrefix negate +:+ logicalName operator +:+ "("
        +:+ join "," (map spec_renderNested values) +:+ ")"
  end.

(** Modelled from the spec: [renderFilter] of [renderers/util.ts]; the key
    is the column or the operator name, the value is [[not.]op.literal] or
    [[not.](child,...)] with the children in nested form. *)
Definition spec_renderFilter (f : Filter) : string * string :=
  match f with
  | ColumnFilter column operator negate value =>
      (column, notPrefix negate +:+ Op.name operator +:+ "." +:+ valueText value)
  | LogicalFilter operator negate values =>
      (logicalName operator,
       notPrefix negate +:+ "(" +:+ join "," (map spec_renderNested values) +:+ ")")
  end.

Definition aliasPrefix (alias : option string) : string :=
  match alias with Some a => a +:+ ":" | None => "" end.

Definition castSuffix (cast : option string) : string :=
  match cast with Some c => "::" +:+ c | None => "" end.

Definition aggregateName (fn : AggregateFunction) : string :=
  match fn with
  | agg_count => "count" | agg_sum => "sum" | agg_avg => "avg"
  | agg_min => "min" | agg_max => "max"
  end.

(** Modelled from the spec: [renderTargets] of [renderers/util.ts]; targets
    joined by commas, an embedded relation as [name(child,child)], an
    aggregate as [col.agg()], an alias as [alias:col], a cast as
    [col::type]. *)
Fixpoint spec_renderTarget (t : Target) : string :=
  match t with
  | ColumnTarget column alias cast =>
      aliasPrefix alias +:+ column +:+ castSuffix cast
  | ResourceTarget relation targets =>
      relation +:+ "(" +:+ join "," (map spec_renderTarget targets) +:+ ")"
  | AggregateTarget fn column alias =>
      aliasPrefix alias +:+ column +:+ "." +:+ aggregateName fn +:+ "()"
  end.

Definition spec_renderTargets (targets : list Target) : string :=
  join "," (map spec_renderTarget targets).

(** Modelled from the spec: [uriEncodeParams] of [renderers/util.ts], for
    keys and values made of characters that percent-encoding leaves as they
    are: the pairs as [key=value], joined by [&]. *)
Definition spec_uriEncodeParams (ps : URLSearchParams) : string :=
  join "&" (map (fun kv => kv.1 +:+ "=" +:+ kv.2) ps).

(** The three together. *)
Definition spec_util : RendererUtil := {|
  renderFilter := spec_renderFilter;
  renderTargets := spec_renderTargets;
  uriEncodeParams := spec_uriEncodeParams
|}.

(** ** An instance of the parser and of the walkers outside these sources *)

(** A stand-in for the parse tree of a WHERE clause: the filter tree that
    [processWhereClause] of [processor/filter.ts] lowers it to. *)
Definition sample_processWhereClause (w : Filter) (_ : Relations) : result Filter :=
  Ok w.

(** A stand-in for a [SelectStmt] node: its [valuesLists] field alone. *)
Definition sample_valuesLists (s : option (list (list Node)))
  : option (list (list Node)) := s.

Definition sample_processSelectStatement (_ : option (list (list Node)))
  : result Select :=
  Err (UnimplementedError "select").

Definition sample_getParsingErrorHint (_ : string) : string := "".

(** [delete from books where id = 1]. *)
Definition idIsOne : Filter := ColumnFilter "id" Op.eq false (Atom (SNumber 1)).

Definition deleteBook : DeleteStmt Filter :=
  mkDeleteStmt (Some (mkRangeVar "books")) (Some idIsOne) None.

(** [delete from books where title like '%war%']. *)
Definition titleIsLike : Filter :=
  ColumnFilter "title" Op.like false (Atom (SString "%war%")).

Definition deleteWar : DeleteStmt Filter :=
  mkDeleteStmt (Some (mkRangeVar "books")) (Some titleIsLike) None.

(** [delete from books where id = 1 returning count( * )]: the RETURNING
    entry is a function call, not a column reference. *)
Definition deleteBookReturningCount : DeleteStmt Filter :=
  mkDeleteStmt (Some (mkRangeVar "books")) (Some idIsOne)
    (Some [ResTarget None OtherNode]).

(** [update books set year = 2000 where id = 1 returning id, year]. *)
Definition constInteger (n : Z) : Node :=
  A_Const (mkA_Const None (Some (Some n)) None None false).

Definition constString (s : string) : Node :=
  A_Const (mkA_Const (Some (Some s)) None None None false).

Definition updateBook : UpdateStmt Filter :=
  mkUpdateStmt (Some (mkRangeVar "books"))
    (Some [ResTarget (Some "year") (constInteger 2000)])
    (Some idIsOne)
    (Some [ResTarget None (ColumnRef [FString "id"]);
           ResTarget None (ColumnRef [FString "year"])]).


(** [update books set "__proto__" = 1, a = 2]. *)
Definition updateProto : UpdateStmt Filter :=
  mkUpdateStmt (Some (mkRangeVar "books"))
    (Some [ResTarget (Some "__proto__") (constInteger 1);
           ResTarget (Some "a") (constInteger 2)])
    None None.


(** [insert into books default values]. *)
Definition insertDefaultValues : InsertStmt (option (list (list Node))) :=
  mkInsertStmt (Some (mkRangeVar "books")) None None None false.

(** [insert into t (a) values (1) returning t."a.b"]. *)
Definition insertReturningDotted : InsertStmt (option (list (list Node))) :=
  mkInsertStmt (Some (mkRangeVar "t"))
    (Some [ResTarget (Some "a") OtherNode])
    (Some (Some [[constInteger 1]]))
    (Some [ResTarget None (ColumnRef [FString "t"; FString "a.b"])])
    false.

(** [insert into books (title, year) values ('X', 1999), ('Y', 2001)
    returning id]. *)
Definition insertBooks : InsertStmt (option (list (list Node))) :=
  mkInsertStmt (Some (mkRangeVar "books"))
    (Some [ResTarget (Some "title") OtherNode; ResTarget (Some "year") OtherNode])
    (Some (Some [[constString "X"; constInteger 1999];
                 [constString "Y"; constInteger 2001]]))
    (Some [ResTarget None (ColumnRef [FString "id"])])
    false.

(** [select title, author from books where id = 1 order by title desc
    limit 10], as the SELECT processor hands it over. *)
Definition selectBooks : Select :=
  mkSelect "books"
    [ColumnTarget "title" None None; ColumnTarget "author" None None]
    (Some idIsOne)
    (Some [mkSort "title" (Some desc) None])
    (Some (mkLimit (Some (Integer 10 I)) None)).

(** A parser that knows three texts. *)
Definition sample_parseQuery (sql : string)
  : ParseOutcome Filter (option (list (list Node))) :=
  if String.eqb sql "" then Parsed (mkParsedQuery [])
  else if String.eqb sql "delete from books where id = 1"
  then Parsed (mkParsedQuery [DeleteStmtNode deleteBook])
  else if String.eqb sql "delete from books where id = 1; delete from books where id = 1"
  then Parsed (mkParsedQuery [DeleteStmtNode deleteBook; DeleteStmtNode deleteBook])
  else ParseFailed "syntax error" (Some 0%Z).

(** The imports of the processors, for the examples. *)
Definition sample_imports : Imports Filter (option (list (list Node))) := {|
  processWhereClause := sample_processWhereClause;
  valuesLists := sample_valuesLists;
  processSelectStatement := sample_processSelectStatement;
  getParsingErrorHint := sample_getParsingErrorHint;
  parseQuery := sample_parseQuery
|}.

(** ** The curl emitter ([formatCurl] of [renderers/http.ts]) *)

(** The fields of a [URL] object that the emitters read. *)
Record URL : Type := mkURL {
  origin : string;
  pathname : string;
  host : string
}.

(** What [formatCurl] takes from outside: [uriEncode] of
    [renderers/util.ts], [JSON.stringify] on a body, and the [URL]
    constructor, which throws on a text that is not a URL. *)
Class CurlImports : Type := {
  uriEncode : string -> string;
  JSON_stringify : Body -> string;
  newURL : string -> option URL
}.

(** [s.replace(/\/+$/, '')]: the slashes at the end are removed. *)
Fixpoint stripTrailingSlashes (s : string) : string :=
  match s with
  | EmptyString => EmptyString
  | String c rest =>
      match stripTrailingSlashes rest with
      | EmptyString => if Ascii.eqb c "/"%char then EmptyString else String c EmptyString
      | rest' => String c rest'
      end
  end.

Definition doubleQuote : string := String (ascii_of_nat 34) EmptyString.
Definition newline : string := String (ascii_of_nat 10) EmptyString.
Definition backslash : string := String (ascii_of_nat 92) EmptyString.

Definition methodName (m : Method) : string :=
  match m with
  | GET => "GET" | POST => "POST" | PATCH => "PATCH" | DELETE => "DELETE"
  end.

Section Curl.

Context {curl : CurlImports}.

(** The line of one query parameter. *)
Definition dataLine (kv : string * string) : string :=
  "  -d " +:+ doubleQuote +:+ uriEncode kv.1 +:+ "=" +:+ uriEncode kv.2
          +:+ doubleQuote.

(** The lines that [formatCurl] pushes, before they are joined. *)
Definition curlLines (baseUrlObject : URL) (httpRequest : HttpRequest)
  : list string :=
  let formattedBaseUrl :=
    stripTrailingSlashes (origin baseUrlObject +:+ pathname baseUrlObject) in
  let maybeGFlag :=
    if decide (0 < length (params httpRequest)) then "-G " else "" in
  match method httpRequest with
  | GET =>
      ["curl " +:+ maybeGFlag +:+ formattedBaseUrl +:+ path httpRequest]
        ++ map dataLine (params httpRequest)
  | POST | PATCH =>
      ["curl -X " +:+ methodName (method httpRequest) +:+ " "
         +:+ formattedBaseUrl +:+ path httpRequest]
        ++ map dataLine (params httpRequest)
        ++ match body httpRequest with
           | Some b =>
               ["  -H " +:+ doubleQuote +:+ "Content-Type: application/json"
                  +:+ doubleQuote;
                "  -d '" +:+ JSON_stringify b +:+ "'"]
           | None => []
           end
  | DELETE =>
      ["curl -X DELETE " +:+ formattedBaseUrl +:+ path httpRequest]
        ++ map dataLine (params httpRequest)
  end.

Definition formatCurl (baseUrl : string) (httpRequest : HttpRequest)
  : result string :=
  match newURL baseUrl with
  | None => Err (OtherError "Invalid URL")
  | Some baseUrlObject =>
      Ok (join (" " +:+ backslash +:+ newline) (curlLines baseUrlObject httpRequest))
  end.

End Curl.

(** ** More words for the properties *)

(** The name under which an item of [cols] or of [targetList] counts: its
    [name] when that is a non-empty string. *)
Definition itemName (item : ListItem) : option string :=
  match item with
  | ResTarget (Some name) _ => if String.eqb name "" then None else Some name
  | _ => None
  end.

Definition isResTarget (item : ListItem) : bool :=
  match item with
  | ResTarget _ _ => true
  | OtherItem => false
  end.

(** The name that a RETURNING entry leaves in the list, if any. *)
Definition keptName (item : ListItem) : option string :=
  match item with
  | ResTarget _ (ColumnRef fields) =>
      match columnName fields with
      | Some name => if String.eqb name "" then None else Some name
      | None => None
      end
  | _ => None
  end.

(** A reference made of [String] segments: the qualifiers, then the name. *)
Definition qualifiedRef (qualifiers : list string) (name : string) : ListItem :=
  ResTarget None (ColumnRef (map FString qualifiers ++ [FString name])).

(** The pair that a RETURNING list puts in the query string. *)
Definition returningParams (returning : option (list string)) : URLSearchParams :=
  match returning with
  | Some (c :: cs) => [("select", join "," (c :: cs))]
  | _ => []
  end.

(** The pairs that the parts of a SELECT other than its filter put in the
    query string. *)
Definition targetParams {util : RendererUtil} (targets : list Target)
  : URLSearchParams :=
  if loneStarOrEmpty targets then [] else [("select", renderTargets targets)].

Definition orderParams (sorts : option (list Sort)) : URLSearchParams :=
  match sorts with
  | Some (s :: ss) => [("order", join "," (map sortValue (s :: ss)))]
  | _ => []
  end.

Definition limitParams (limit : option Limit) : URLSearchParams :=
  match limit with
  | Some l =>
      match count l with
      | Some c => [("limit", number_toString c)]
      | None => []
      end
      ++ match offset l with
         | Some o => [("offset", number_toString o)]
         | None => []
         end
  | None => []
  end.

(** A key that the parts of a SELECT after its filter set. *)
Definition setLater (key : string) : bool :=
  String.eqb key "order" || String.eqb key "limit" || String.eqb key "offset".

(** What a value item of INSERT hands over. *)
Definition insertValue (value : Node) : result Value :=
  match value with
  | A_Const c => constValue c "Unsupported constant type in INSERT values"
  | _ =>
      Err (UnsupportedError
             "INSERT values must be constants (no expressions or subqueries)")
  end.

(** The objects of a body, one for each row. *)
Definition bodyObjects (b : Body) : list JsObject :=
  match b with
  | BodyObject o => [o]
  | BodyArray l => l
  end.

(** A run of slashes, and the test that a text ends in a slash. *)
Fixpoint slashes (n : nat) : string :=
  match n with
  | O => EmptyString
  | S n' => String "/"%char (slashes n')
  end.

Fixpoint endsWithSlash (s : string) : bool :=
  match s with
  | EmptyString => false
  | String c EmptyString => Ascii.eqb c "/"%char
  | String _ rest => endsWithSlash rest
  end.


(** An instance of [CurlImports] for the examples: no character is encoded,
    a body is not spelled out, and the only URL is [http://localhost:3000/]. *)
Definition sample_curl : CurlImports := {|
  uriEncode := fun s => s;
  JSON_stringify := fun _ => "{}";
  newURL := fun s =>
    if String.eqb s "http://localhost:3000/"
    then Some (mkURL "http://localhost:3000" "/" "localhost:3000")
    else None
|}.

(** * Properties *)

(** ** URLSearchParams *)

Lemma params_getAll_app ps qs key :
  params_getAll (ps ++ qs) key = params_getAll ps key ++ params_getAll qs key.
Proof.
  unfold params_getAll. now rewrite List.filter_app, map_app.
Qed.

Lemma filter_other_key (ps : URLSearchParams) key key' :
  key <> key' ->
  List.filter (fun kv => String.eqb kv.1 key')
    (List.filter (fun kv => negb (String.eqb kv.1 key)) ps)
  = List.filter (fun kv => String.eqb kv.1 key') ps.
Proof.
  intros Hne. induction ps as [|[k v] ps IH]; simpl; [reflexivity|].
  destruct (String.eqb_spec k key) as [->|Hk]; simpl.
  - destruct (String.eqb_spec key key') as [Heq|_]; [contradiction|apply IH].
  - destruct (String.eqb k key'); simpl; now rewrite IH.
Qed.

Lemma filter_same_key (ps : URLSearchParams) key :
  List.filter (fun kv => String.eqb kv.1 key)
    (List.filter (fun kv => negb (String.eqb kv.1 key)) ps) = [].
Proof.
  induction ps as [|[k v] ps IH]; simpl; [reflexivity|].
  destruct (String.eqb k key) eqn:E; simpl; [apply IH|].
  now rewrite E.
Qed.

(** After [set], the key has exactly the value that was set. *)
Lemma params_getAll_set_same ps key value :
  params_getAll (params_set ps key value) key = [value].
Proof.
  unfold params_getAll.
  induction ps as [|[k v] ps IH]; simpl.
  - now rewrite String.eqb_refl.
  - destruct (String.eqb k key) eqn:E; simpl; rewrite E; simpl.
    + now rewrite filter_same_key.
    + apply IH.
Qed.

(** [set] leaves the values of the other keys as they are. *)
Lemma params_getAll_set_other ps key value key' :
  key <> key' ->
  params_getAll (params_set ps key value) key' = params_getAll ps key'.
Proof.
  intros Hne. unfold params_getAll.
  induction ps as [|[k v] ps IH]; simpl.
  - destruct (String.eqb_spec key key'); [contradiction|reflexivity].
  - destruct (String.eqb_spec k key) as [->|Hk]; simpl.
    + destruct (String.eqb_spec key key'); [contradiction|].
      now rewrite filter_other_key.
    + destruct (String.eqb k key'); simpl; now rewrite IH.
Qed.

(** ** The filter-root routine *)

Section RootRoutine.

Context {util : RendererUtil}.

Lemma params_append_pair ps (kv : string * string) :
  (let '(key, value) := kv in params_append ps key value) = ps ++ [kv].
Proof. now destruct kv. Qed.

Lemma renderFilterRoot_leaf ps f :
  isPlainAnd f = false ->
  renderFilterRoot ps f = ps ++ [renderFilter f].
Proof.
  intros H.
  destruct f as [c o n v|[] [] vs]; simpl in *;
    try discriminate; apply params_append_pair.
Qed.

Lemma rootFilters_leaf f : isPlainAnd f = false -> rootFilters f = [f].
Proof. destruct f as [c o n v|[] [] vs]; simpl; now try discriminate. Qed.

(** The routine appends to the parameters it is given the rendering of
    each root filter, in order. *)
Lemma renderFilterRoot_rootFilters f :
  forall ps,
    renderFilterRoot ps f
    = ps ++ map renderFilter (rootFilters f).
Proof.
  induction f as [c o n v|o n vs IH] using Filter_nested_ind; intros ps.
  - apply params_append_pair.
  - destruct (isPlainAnd (LogicalFilter o n vs)) eqn:E.
    + destruct o, n; try discriminate. simpl. clear E.
      revert ps. induction IH as [|g vs Hg _ IHvs]; intros ps; simpl.
      * now rewrite app_nil_r.
      * rewrite IHvs, Hg, map_app. now rewrite app_assoc.
    + rewrite renderFilterRoot_leaf, rootFilters_leaf by assumption.
      reflexivity.
Qed.

Lemma rootFilters_not_plain_and f :
  Forall (fun g => isPlainAnd g = false) (rootFilters f).
Proof.
  induction f as [c o n v|o n vs IH] using Filter_nested_ind.
  - repeat constructor.
  - destruct (isPlainAnd (LogicalFilter o n vs)) eqn:E.
    + destruct o, n; try discriminate. simpl. clear E.
      induction IH as [|g vs Hg _ IHvs]; simpl; [constructor|].
      apply Forall_app. split; assumption.
    + rewrite rootFilters_leaf by assumption. repeat constructor. exact E.
Qed.

(** C1. The filter-root routine: a root that is an [and] with [negate]
    false hands each of its children, in order, to the same routine, which
    unfolds the children that are again non-negated [and]s; every other
    filter (a negated [and], an [or], a column filter) is appended as
    exactly one (key, value) pair.  Hence the routine appends one pair for
    each of [rootFilters f], none of which is a non-negated [and]. *)
Theorem renderFilterRoot_flattens ps f :
  renderFilterRoot ps f
  = match f with
    | LogicalFilter and_ false values =>
        fold_left renderFilterRoot values ps
    | _ => ps ++ [renderFilter f]
    end
  /\ renderFilterRoot ps f = ps ++ map renderFilter (rootFilters f)
  /\ Forall (fun g => isPlainAnd g = false) (rootFilters f).
Proof.
  split; [|split].
  - destruct f as [c o n v|[] [] vs]; simpl;
      first [reflexivity | apply params_append_pair].
  - apply renderFilterRoot_rootFilters.
  - apply rootFilters_not_plain_and.
Qed.

End RootRoutine.

(** ** Strings *)

Lemma string_length_append (s t : string) :
  String.length (s +:+ t) = String.length s + String.length t.
Proof. induction s as [|c s IH]; simpl; [reflexivity|now rewrite IH]. Qed.

Lemma string_prefix_append (s t : string) : String.prefix s (s +:+ t) = true.
Proof.
  induction s as [|c s IH]; simpl.
  - now destruct t.
  - destruct (ascii_dec c c); [exact IH|contradiction].
Qed.

Lemma string_prefix_refl (s : string) : String.prefix s s = true.
Proof.
  induction s as [|c s IH]; simpl; [reflexivity|].
  destruct (ascii_dec c c); [exact IH|contradiction].
Qed.

Lemma string_append_longer (s t : string) (c : ascii) : s +:+ String c t <> s.
Proof.
  intros H. apply (f_equal String.length) in H.
  rewrite string_length_append in H. simpl in H. lia.
Qed.

(** ** The rendered request *)

Section Request.

Context {util : RendererUtil}.

(** Each formatter installs the same getter over its own [path] and
    [params]. *)
Lemma fullPath_getter processed :
  fullPath (renderHttp processed)
  = get_fullPath (path (renderHttp processed))
      (params (renderHttp processed)).
Proof. destruct processed; reflexivity. Qed.

Lemma get_fullPath_cases p ps :
  get_fullPath p ps
  = match ps with
    | [] => p
    | _ :: _ => p +:+ "?" +:+ uriEncodeParams ps
    end.
Proof.
  unfold get_fullPath. destruct ps as [|kv ps]; [reflexivity|].
  destruct (decide (0 < length (kv :: ps))) as [_|H]; [reflexivity|].
  simpl in H. lia.
Qed.

(** C3. In every rendered request, [fullPath] starts with [path]; it is
    [path] exactly when [params] is empty, and otherwise it is [path], a
    question mark and the encoded parameters. *)
Theorem fullPath_spec processed :
  let r := renderHttp processed in
  String.prefix (path r) (fullPath r) = true
  /\ (fullPath r = path r <-> params r = [])
  /\ fullPath r
     = match params r with
       | [] => path r
       | _ :: _ => path r +:+ "?" +:+ uriEncodeParams (params r)
       end.
Proof.
  intros r. subst r.
  rewrite fullPath_getter, get_fullPath_cases.
  destruct (params (renderHttp processed)) as [|kv ps] eqn:E.
  - split; [apply string_prefix_refl|]. split; [tauto|reflexivity].
  - split; [apply string_prefix_append|]. split; [|reflexivity].
    split; [|discriminate].
    intros H. exfalso. revert H. simpl. apply string_append_longer.
Qed.

(** *** SELECT *)

Lemma selectWanted_loneStarOrEmpty targets :
  selectWanted targets = negb (loneStarOrEmpty targets).
Proof.
  destruct targets as [|[c a k|rel ts|fn c a] [|t2 rest]]; simpl; try reflexivity.
  - now rewrite orb_false_r.
  - now rewrite orb_true_r.
Qed.

Lemma loneStarOrEmpty_spec targets :
  loneStarOrEmpty targets = true
  <-> targets = [] \/ exists alias cast, targets = [ColumnTarget "*" alias cast].
Proof.
  split.
  - destruct targets as [|[c a k|rel ts|fn c a] [|t2 rest]]; simpl;
      try discriminate; auto.
    intros H. apply String.eqb_eq in H. subst c. right. eauto.
  - intros [->|(a & k & ->)]; reflexivity.
Qed.

Lemma filter_stage ps f :
  match f with
  | Some g => renderFilterRoot ps g
  | None => ps
  end = ps ++ filterParams f.
Proof.
  destruct f as [g|]; simpl.
  - apply renderFilterRoot_rootFilters.
  - now rewrite app_nil_r.
Qed.

(** The values of a key that none of the later [set]s uses are fixed once
    the filter has been rendered. *)
Lemma formatSelect_getAll select key :
  key <> "order" -> key <> "limit" -> key <> "offset" ->
  params_getAll (params (formatSelect select)) key
  = params_getAll
      ((if selectWanted (select_targets select)
        then [("select", renderTargets (select_targets select))]
        else []) ++ filterParams (select_filter select)) key.
Proof.
  intros Ho Hl Hf. unfold formatSelect. cbn [params].
  rewrite filter_stage.
  assert (Hsel : forall v, params_set [] "select" v = [("select", v)]) by reflexivity.
  rewrite Hsel. clear Hsel.
  set (ps0 := (if selectWanted _ then _ else _) ++ _).
  set (ps1 := match select_sorts select with Some _ => _ | None => _ end).
  assert (H1 : params_getAll ps1 key = params_getAll ps0 key).
  { subst ps1. destruct (select_sorts select) as [sorts|]; [|reflexivity].
    cbv zeta. case_decide; [|reflexivity].
    apply params_getAll_set_other. congruence. }
  rewrite <- H1. clearbody ps1. clear H1 ps0.
  destruct (select_limit select) as [limit|]; [|reflexivity].
  destruct (offset limit), (count limit);
    repeat (rewrite params_getAll_set_other by congruence); reflexivity.
Qed.

(** C5 (amended). [formatSelect] leaves out [select=<rendered targets>]
    exactly when the target list is empty or is one column target of [*],
    whatever its alias and cast: the values of [select] in the query string
    are the rendered targets, unless the list is of that kind, followed by
    what the filter contributes under that key.  In particular
    [select * from books] is [GET /books] without parameters. *)
Theorem select_parameter_omitted select :
  params_getAll (params (formatSelect select)) "select"
  = (if loneStarOrEmpty (select_targets select)
     then []
     else [renderTargets (select_targets select)])
    ++ params_getAll (filterParams (select_filter select)) "select"
  /\ (loneStarOrEmpty (select_targets select) = true
      <-> select_targets select = []
          \/ exists alias cast,
               select_targets select = [ColumnTarget "*" alias cast])
  /\ formatSelect (mkSelect "books" canonicalStar None None None)
     = mkHttpRequest GET "/books" [] None "/books".
Proof.
  split; [|split].
  - rewrite formatSelect_getAll by discriminate.
    rewrite params_getAll_app, selectWanted_loneStarOrEmpty.
    now destruct (loneStarOrEmpty (select_targets select)).
  - apply loneStarOrEmpty_spec.
  - reflexivity.
Qed.

Lemma readDecimal_decimalText n : readDecimal (decimalText n) = Some n.
Proof.
  unfold readDecimal, decimalText.
  rewrite NilZero.isi.
  - simpl. now rewrite DecimalZ.of_to.
  - destruct n as [|p|p]; simpl; try discriminate.
    intros [= H]. now apply (Unsigned.to_uint_nonnil p).
  - destruct n as [|p|p]; simpl; try discriminate.
    intros [= H]. now apply (Unsigned.to_uint_nonnil p).
Qed.

(** C7. A SELECT whose limit has a count renders [limit=N], and one whose
    limit has an offset renders [offset=N], each as the only value of its
    key, where [N] is what [toString] gives for the number: for a safe
    integer its decimal numeral, which reads back as the number.  Zero is
    no exception and is written [0]. *)
Theorem limit_offset_emitted select limit :
  select_limit select = Some limit ->
  let ps := params (formatSelect select) in
  match count limit with
  | Some c => params_getAll ps "limit" = [number_toString c]
  | None => True
  end
  /\ match offset limit with
     | Some o => params_getAll ps "offset" = [number_toString o]
     | None => True
     end
  /\ (forall n safe,
        number_toString (Integer n safe) = NilZero.string_of_int (Z.to_int n)
        /\ readDecimal (number_toString (Integer n safe)) = Some n)
  /\ (forall text, number_toString (OtherNumber text) = text)
  /\ number_toString (Integer 0 I) = "0".
Proof.
  intros Hl ps. subst ps. unfold formatSelect. cbn [params]. rewrite Hl.
  assert (Hdigits : forall n safe,
             number_toString (Integer n safe) = NilZero.string_of_int (Z.to_int n)
             /\ readDecimal (number_toString (Integer n safe)) = Some n).
  { intros n safe. split; [reflexivity|apply readDecimal_decimalText]. }
  destruct (count limit) as [c|], (offset limit) as [o|]; repeat split;
    try apply params_getAll_set_same; try apply Hdigits.
  rewrite params_getAll_set_other by discriminate.
  apply params_getAll_set_same.
Qed.

(** *** INSERT *)

Lemma assign_lookup_ne {V : Type} (isNull : V -> bool) obj key value col :
  key <> col -> (assign isNull obj key value).1 !! col = obj.1 !! col.
Proof.
  intros Hne. unfold assign.
  destruct (String.eqb key "__proto__" && negb obj.2); simpl; [reflexivity|].
  now apply lookup_insert_ne.
Qed.

Lemma assign_lookup_eq {V : Type} (isNull : V -> bool) obj key value :
  key <> "__proto__" -> (assign isNull obj key value).1 !! key = Some value.
Proof.
  intros Hne. unfold assign.
  destruct (String.eqb_spec key "__proto__"); [contradiction|]. simpl.
  apply lookup_insert_eq.
Qed.

(** What an assignment can leave under a key: what was there, or the value
    assigned, and this only under the key assigned. *)
Lemma assign_lookup_inv {V : Type} (isNull : V -> bool) obj key value col v :
  (assign isNull obj key value).1 !! col = Some v ->
  obj.1 !! col = Some v \/ (key = col /\ v = value).
Proof.
  unfold assign.
  destruct (String.eqb key "__proto__" && negb obj.2); simpl; [now left|].
  destruct (decide (key = col)) as [->|Hne].
  - rewrite lookup_insert_eq. intros [= <-]. now right.
  - rewrite lookup_insert_ne by assumption. now left.
Qed.

(** An assignment that does not give [null] to [__proto__] leaves an object
    with the prototype of a plain object and without a key [__proto__] as
    it is in both respects. *)
Lemma assign_proto_absent {V : Type} (isNull : V -> bool) obj key value :
  (key = "__proto__" -> isNull value = false) ->
  obj.2 = false /\ obj.1 !! "__proto__" = None ->
  (assign isNull obj key value).2 = false
  /\ (assign isNull obj key value).1 !! "__proto__" = None.
Proof.
  intros Hnull [Hflag Hkey]. unfold assign. rewrite Hflag.
  destruct (String.eqb_spec key "__proto__") as [Heq|Hne]; simpl.
  - split; [now apply Hnull|exact Hkey].
  - split; [reflexivity|]. now rewrite lookup_insert_ne.
Qed.

Lemma buildRow_snoc cols c row :
  buildRow (cols ++ [c]) row
  = assign isNullEntry (buildRow cols row) c (row !! length cols).
Proof.
  unfold buildRow. rewrite imap_app, fold_left_app. simpl.
  now rewrite Nat.add_0_r.
Qed.

Lemma lastIndexOf_snoc col cols c :
  lastIndexOf col (cols ++ [c])
  = if String.eqb c col then Some (length cols) else lastIndexOf col cols.
Proof.
  induction cols as [|d cols IH]; simpl.
  - reflexivity.
  - rewrite IH. destruct (String.eqb c col); [reflexivity|].
    now destruct (lastIndexOf col cols).
Qed.

Lemma lastIndexOf_lt col cols i :
  lastIndexOf col cols = Some i -> i < length cols.
Proof.
  revert i. induction cols as [|c cols IH]; simpl; intros i; [discriminate|].
  destruct (lastIndexOf col cols) as [j|].
  - intros [= <-]. specialize (IH j eq_refl). lia.
  - destruct (String.eqb c col); [intros [= <-]; lia|discriminate].
Qed.

Lemma lastIndexOf_elem col cols :
  col ∈ cols -> exists i, lastIndexOf col cols = Some i.
Proof.
  induction cols as [|c cols IH]; simpl; intros H.
  - now apply elem_of_nil in H.
  - destruct (lastIndexOf col cols) as [j|] eqn:E; [eauto|].
    apply elem_of_cons in H as [->|H].
    + rewrite String.eqb_refl. eauto.
    + destruct (IH H) as [i Hi]. discriminate.
Qed.

(** Under a column other than [__proto__], the object of a row holds what
    the row has at the last position where the column is listed, and it has
    no key for a column that is not listed. *)
Lemma rowObject_lookup cols row col :
  col <> "__proto__" ->
  rowObject cols row !! col = (fun i => row !! i) <$> lastIndexOf col cols.
Proof.
  intros Hcol. unfold rowObject.
  induction cols as [|c cols IH] using rev_ind.
  - reflexivity.
  - rewrite buildRow_snoc, lastIndexOf_snoc.
    destruct (String.eqb_spec c col) as [->|Hne].
    + now rewrite assign_lookup_eq.
    + now rewrite assign_lookup_ne.
Qed.

(** Every key of the object of a row is a column that is listed, and holds
    the entry of the row at a position of that column. *)
Lemma rowObject_keys cols row col v :
  rowObject cols row !! col = Some v ->
  exists i, cols !! i = Some col /\ v = row !! i.
Proof.
  unfold rowObject. induction cols as [|c cols IH] using rev_ind.
  - discriminate.
  - rewrite buildRow_snoc. intros H.
    apply assign_lookup_inv in H as [H|[-> ->]].
    + destruct (IH H) as (i & Hi & ->). exists i. split; [|reflexivity].
      now apply lookup_app_l_Some.
    + exists (length cols). split; [|reflexivity].
      now rewrite list_lookup_middle.
Qed.



(** *** RETURNING in the renderer *)

Lemma setReturning_empty ps : setReturning ps (Some []) = setReturning ps None.
Proof. reflexivity. Qed.

Lemma setReturning_nonempty ps c cs :
  setReturning ps (Some (c :: cs)) = params_set ps "select" (join "," (c :: cs)).
Proof. reflexivity. Qed.

End Request.

(** ** Loops that may throw *)

Lemma forEach_app {A S : Type} (body : S -> A -> result S) l1 l2 s :
  forEach body (l1 ++ l2) s
  = (let* s' := forEach body l1 s in forEach body l2 s').
Proof.
  revert s. induction l1 as [|x l1 IH]; intros s; simpl; [reflexivity|].
  destruct (body s x); simpl; [apply IH|reflexivity].
Qed.

(** ** The basic-operator validator *)

Lemma occurs_column_inv c o n v c' o' n' v' :
  occurs (ColumnFilter c o n v) (ColumnFilter c' o' n' v') -> o = o'.
Proof. inversion 1; reflexivity. Qed.

Lemma occurs_logical_inv c o n v lo ln values :
  occurs (ColumnFilter c o n v) (LogicalFilter lo ln values) ->
  exists f, f ∈ values /\ occurs (ColumnFilter c o n v) f.
Proof. inversion 1; subst; eauto. Qed.

Lemma allBasic_not_containsNonBasic f : allBasic f -> ~ containsNonBasic f.
Proof.
  intros Hall (c & o & n & v & Hocc & Hnot). apply Hnot. eapply Hall, Hocc.
Qed.

(** The loop of the validator over the children of a logical filter. *)
Lemma validate_children kind values :
  Forall (fun f =>
            (validateBasicFilters kind f = Ok tt /\ allBasic f)
            \/ (validateBasicFilters kind f
                = Err (UnsupportedError (basicOperatorsMessage kind))
                /\ containsNonBasic f)) values ->
  (forEach (fun _ subFilter => validateBasicFilters kind subFilter) values tt = Ok tt
   /\ Forall allBasic values)
  \/ (forEach (fun _ subFilter => validateBasicFilters kind subFilter) values tt
      = Err (UnsupportedError (basicOperatorsMessage kind))
      /\ Exists containsNonBasic values).
Proof.
  induction 1 as [|f values Hf _ IH]; simpl.
  - left. split; [reflexivity|constructor].
  - destruct Hf as [[Hok Hall]|[Herr Hnon]].
    + rewrite Hok. simpl. destruct IH as [[Hok' Hall']|[Herr' Hnon']].
      * left. split; [assumption|]. now constructor.
      * right. split; [assumption|]. now apply Exists_cons_tl.
    + rewrite Herr. simpl. right. split; [reflexivity|]. now apply Exists_cons_hd.
Qed.

(** The validator either accepts a tree all of whose column filters are
    basic, or rejects, with its own message, a tree that holds a column
    filter that is not. *)
Lemma validateBasicFilters_cases kind f :
  (validateBasicFilters kind f = Ok tt /\ allBasic f)
  \/ (validateBasicFilters kind f
      = Err (UnsupportedError (basicOperatorsMessage kind))
      /\ containsNonBasic f).
Proof.
  induction f as [c o n v|lo ln values IH] using Filter_nested_ind.
  - simpl. unfold includes. destruct (bool_decide_reflect (o ∈ allowedOperators)) as [Hin|Hnot].
    + left. split; [reflexivity|].
      intros c' o' n' v' Hocc. apply occurs_column_inv in Hocc. now subst.
    + right. split; [reflexivity|].
      exists c, o, n, v. split; [constructor|assumption].
  - simpl. destruct (validate_children kind values IH) as [[Hok Hall]|[Herr Hnon]].
    + left. split; [assumption|].
      intros c o n v Hocc. apply occurs_logical_inv in Hocc as (f & Hf & Hocc).
      rewrite Forall_forall in Hall. eapply Hall; eassumption.
    + right. split; [assumption|].
      apply Exists_exists in Hnon as (f & Hf & c & o & n & v & Hocc & Hnot).
      exists c, o, n, v. split; [|assumption].
      eapply occurs_below; eassumption.
Qed.

Lemma validateBasicFilters_rejects kind f :
  isUnsupported (validateBasicFilters kind f) = true <-> containsNonBasic f.
Proof.
  destruct (validateBasicFilters_cases kind f) as [[Hok Hall]|[Herr Hnon]].
  - rewrite Hok. simpl. split; [discriminate|].
    intros H. now apply allBasic_not_containsNonBasic in Hall.
  - rewrite Herr. simpl. tauto.
Qed.

Lemma validateBasicFilters_accepts kind f :
  validateBasicFilters kind f = Ok tt <-> ~ containsNonBasic f.
Proof.
  destruct (validateBasicFilters_cases kind f) as [[Hok Hall]|[Herr Hnon]].
  - split; [intros _; now apply allBasic_not_containsNonBasic|now intros _].
  - rewrite Herr. split; [discriminate|tauto].
Qed.

(** ** The processors *)

Lemma processReturning_error l e :
  processReturning l = Err e ->
  e = UnsupportedError "RETURNING clause only supports simple column names".
Proof.
  destruct l as [l|]; simpl; [|discriminate].
  generalize (@nil string) as acc.
  induction l as [|item l IH]; intros acc; simpl; [discriminate|].
  destruct item as [name [fields| |]|]; simpl; try (intros [= <-]; reflexivity).
  destruct (truthy (columnName fields)); simpl; apply IH.
Qed.

(** The RETURNING list is rejected exactly when one of its entries is not a
    column reference. *)
Lemma processReturning_rejects l :
  isUnsupported (processReturning (Some l)) = true
  <-> Exists (fun item => isColumnRef item = false) l.
Proof.
  simpl. generalize (@nil string) as acc.
  induction l as [|item l IH]; intros acc; simpl.
  - split; [discriminate|]. intros H. inversion H.
  - destruct item as [name [fields| |]|]; simpl.
    + assert (Htail : forall acc',
                 isUnsupported
                   (let* returning := forEach returningStep l acc' in
                    Ok (Some returning)) = true
                 <-> Exists (fun item => isColumnRef item = false)
                       (ResTarget name (ColumnRef fields) :: l)).
      { intros acc'. rewrite IH. split.
        - intros H. now apply Exists_cons_tl.
        - intros H. inversion H as [? ? Hhd|? ? Htl]; subst;
            [discriminate Hhd|exact Htl]. }
      destruct (truthy (columnName fields)); simpl; apply Htail.
    + split; [intros _; now apply Exists_cons_hd|reflexivity].
    + split; [intros _; now apply Exists_cons_hd|reflexivity].
    + split; [intros _; now apply Exists_cons_hd|reflexivity].
Qed.

Section Statements.

Context {WhereClause SelectStmt : Type}.
Context {imports : Imports WhereClause SelectStmt}.

(** The WHERE step of UPDATE and DELETE, once the clause is lowered. *)
Lemma processWhere_lowered kind tableName w f :
  processWhereClause w (mkRelations tableName []) = Ok f ->
  processWhere kind tableName (Some w)
  = (check validateBasicFilters kind f in Ok (Some f)).
Proof. intros H. unfold processWhere. now rewrite H. Qed.

(** C2. For an UPDATE or a DELETE whose WHERE clause the walker lowers to
    a filter tree, the processing of the clause fails, with
    UnsupportedError, if and only if the tree holds a column filter whose
    operator is not one of eq, neq, gt, gte, lt, lte, and the statement
    then fails with that error; otherwise the tree is kept as the filter.
    Logical filters ([and], [or], negated or not) are walked and never
    rejected themselves, so a negated [or] of basic predicates is
    accepted. *)
Theorem where_clause_validation :
  (forall kind f,
      (isUnsupported (validateBasicFilters kind f) = true <-> containsNonBasic f)
      /\ (validateBasicFilters kind f = Ok tt <-> ~ containsNonBasic f))
  /\ (forall kind values,
        Forall (fun f => exists c o n v,
                    f = ColumnFilter c o n v /\ o ∈ allowedOperators) values ->
        validateBasicFilters kind (LogicalFilter or_ true values) = Ok tt)
  /\ (forall kind tableName w f,
        processWhereClause w (mkRelations tableName []) = Ok f ->
        (isUnsupported (processWhere kind tableName (Some w)) = true
         <-> containsNonBasic f)
        /\ (processWhere kind tableName (Some w) = Ok (Some f)
            <-> ~ containsNonBasic f))
  /\ (forall (stmt : UpdateStmt WhereClause) relation targetList setClause w f,
        u_relation stmt = Some relation ->
        u_targetList stmt = Some targetList ->
        forEach setStep targetList (∅, false) = Ok setClause ->
        u_whereClause stmt = Some w ->
        processWhereClause w (mkRelations (relname relation) []) = Ok f ->
        containsNonBasic f ->
        processUpdateStatement stmt
        = Err (UnsupportedError (basicOperatorsMessage "UPDATE")))
  /\ (forall (stmt : DeleteStmt WhereClause) relation w f,
        d_relation stmt = Some relation ->
        d_whereClause stmt = Some w ->
        processWhereClause w (mkRelations (relname relation) []) = Ok f ->
        containsNonBasic f ->
        processDeleteStatement stmt
        = Err (UnsupportedError (basicOperatorsMessage "DELETE"))).
Proof.
  split; [|split; [|split; [|split]]].
  - intros kind f. split.
    + apply validateBasicFilters_rejects.
    + apply validateBasicFilters_accepts.
  - intros kind values Hall. apply validateBasicFilters_accepts.
    intros (c & o & n & v & Hocc & Hnot).
    apply occurs_logical_inv in Hocc as (f & Hf & Hocc).
    rewrite Forall_forall in Hall.
    destruct (Hall f Hf) as (c' & o' & n' & v' & -> & Hin).
    apply occurs_column_inv in Hocc. now subst.
  - intros kind tableName w f Hlow.
    rewrite (processWhere_lowered _ _ _ _ Hlow).
    destruct (validateBasicFilters_cases kind f) as [[Hok Hall]|[Herr Hnon]].
    + rewrite Hok. cbn [bind isUnsupported].
      apply allBasic_not_containsNonBasic in Hall.
      split; split; try tauto; discriminate.
    + rewrite Herr. cbn [bind isUnsupported].
      split; split; try tauto; discriminate.
  - intros stmt relation targetList setClause w f Hrel Htl Hset Hw Hlow Hnon.
    unfold processUpdateStatement. rewrite Hrel, Htl, Hset, Hw. cbn [bind].
    rewrite (processWhere_lowered _ _ _ _ Hlow).
    destruct (validateBasicFilters_cases "UPDATE" f) as [[_ Hall]|[Herr _]].
    + now apply allBasic_not_containsNonBasic in Hall.
    + now rewrite Herr.
  - intros stmt relation w f Hrel Hw Hlow Hnon.
    unfold processDeleteStatement. rewrite Hrel, Hw.
    rewrite (processWhere_lowered _ _ _ _ Hlow).
    destruct (validateBasicFilters_cases "DELETE" f) as [[_ Hall]|[Herr _]].
    + now apply allBasic_not_containsNonBasic in Hall.
    + now rewrite Herr.
Qed.

(** C6. When the parser succeeds, [processSql] fails with UnsupportedError
    "Expected a statement, but received none" on an empty list of
    statements, with UnsupportedError "Expected a single statement, but
    received multiple" on a list of two or more, and otherwise processes the
    one statement. *)
Theorem processSql_single_statement sql parsed :
  parseQuery sql = Parsed parsed ->
  match stmts parsed with
  | [] =>
      processSql sql
      = Err (UnsupportedError "Expected a statement, but received none")
  | [statement] => processSql sql = processStatement statement
  | _ :: _ :: _ =>
      processSql sql
      = Err (UnsupportedError "Expected a single statement, but received multiple")
  end.
Proof.
  intros H. unfold processSql. rewrite H.
  destruct (stmts parsed) as [|s1 [|s2 rest]]; simpl.
  - reflexivity.
  - reflexivity.
  - destruct (decide (1 < S (S (length rest)))) as [_|Hn]; [reflexivity|lia].
Qed.

End Statements.

(** ** The name kept for a RETURNING column *)

Lemma string_append_assoc (s t u : string) : (s +:+ t) +:+ u = s +:+ t +:+ u.
Proof.
  induction s as [|c s IH]; [reflexivity|].
  change (String c ((s +:+ t) +:+ u) = String c (s +:+ t +:+ u)).
  now rewrite IH.
Qed.

Lemma join_snoc sep xs x y :
  join sep ((x :: xs) ++ [y]) = join sep (x :: xs) +:+ sep +:+ y.
Proof.
  unfold join. revert x. induction xs as [|x' xs IH]; intros x.
  - reflexivity.
  - change (String.concat sep ((x :: x' :: xs) ++ [y]))
      with (x +:+ sep +:+ String.concat sep ((x' :: xs) ++ [y])).
    rewrite IH.
    change (String.concat sep (x :: x' :: xs))
      with (x +:+ sep +:+ String.concat sep (x' :: xs)).
    now rewrite !string_append_assoc.
Qed.

Lemma split_dot_not_nil s : split_dot s <> [].
Proof.
  destruct s as [|c s]; simpl; [discriminate|].
  destruct (Ascii.eqb c "."); [discriminate|].
  destruct (split_dot s); discriminate.
Qed.

(** Splitting cuts at a dot. *)
Lemma split_dot_app_dot s t :
  split_dot (s +:+ "." +:+ t) = split_dot s ++ split_dot t.
Proof.
  induction s as [|c s IH]; simpl; [reflexivity|].
  rewrite IH. destruct (Ascii.eqb c "."); [reflexivity|].
  destruct (split_dot s) as [|piece pieces] eqn:E; [|reflexivity].
  now apply split_dot_not_nil in E.
Qed.

Lemma split_dot_dotFree s : dotFree s = true -> split_dot s = [s].
Proof.
  induction s as [|c s IH]; simpl; [reflexivity|].
  destruct (Ascii.eqb c "."); simpl; [discriminate|].
  intros H. now rewrite IH.
Qed.

Lemma last_split_dot_suffix s t :
  dotFree t = true -> last (split_dot (s +:+ "." +:+ t)) = Some t.
Proof.
  intros H. rewrite split_dot_app_dot, (split_dot_dotFree t H).
  apply last_snoc.
Qed.

(** For a reference whose last segment is a name without a dot, the name
    kept is that last segment, whatever qualifies it. *)
Lemma columnName_last_segment fields name :
  dotFree name = true ->
  columnName (fields ++ [FString name]) = Some name.
Proof.
  intros H. unfold columnName. rewrite map_app. simpl.
  destruct (map fieldText fields) as [|x xs].
  - simpl. now rewrite split_dot_dotFree.
  - rewrite join_snoc. now apply last_split_dot_suffix.
Qed.

Lemma last_split_dot_empty texts :
  Forall (fun t => t = "") texts -> last (split_dot (join "." texts)) = Some "".
Proof.
  induction 1 as [|t texts -> Hall IH]; [reflexivity|].
  destruct texts as [|t' texts]; [reflexivity|].
  change (join "." ("" :: t' :: texts)) with ("" +:+ "." +:+ join "." (t' :: texts)).
  rewrite split_dot_app_dot.
  change (split_dot "" ++ split_dot (join "." (t' :: texts)))
    with ("" :: split_dot (join "." (t' :: texts))).
  now rewrite last_cons, IH.
Qed.

(** When no field is a [String] node, every piece is empty, and so is the
    last. *)
Lemma columnName_segmentless fields :
  forallb notString fields = true -> columnName fields = Some "".
Proof.
  intros H. apply last_split_dot_empty.
  apply Forall_map, Forall_forall. intros field Hin.
  rewrite forallb_forall in H. apply list_elem_of_In in Hin.
  specialize (H field Hin). now destruct field.
Qed.

Lemma returningStep_segmentless returning item :
  segmentless item = true -> returningStep returning item = Ok returning.
Proof.
  destruct item as [name [fields| |]|]; simpl; try discriminate.
  intros H. now rewrite (columnName_segmentless fields H).
Qed.

Lemma forEach_returningStep_segmentless l returning :
  forallb segmentless l = true ->
  forEach returningStep l returning = Ok returning.
Proof.
  induction l as [|item l IH]; simpl; [reflexivity|].
  intros H. apply andb_true_iff in H as [Hitem Hrest].
  rewrite (returningStep_segmentless _ _ Hitem). simpl. now apply IH.
Qed.

(** ** INSERT without rows, RETURNING without names *)

Section Pipeline.

Context {util : RendererUtil}.
Context {WhereClause SelectStmt : Type}.
Context {imports : Imports WhereClause SelectStmt}.

(** C9. An INSERT without value rows, be it that it has no inner select
    node or that the node has an empty list of rows, passes the VALUES step
    with no rows: whenever the statement is accepted its [values] is empty,
    and it is accepted when its table, column list and RETURNING list are
    and it has no ON CONFLICT clause.  The renderer then gives a POST whose
    body is the empty array, not an object. *)
Theorem insert_without_rows (stmt : InsertStmt SelectStmt) :
  i_selectStmt stmt = None
  \/ (exists s, i_selectStmt stmt = Some s /\ valuesLists s = Some []) ->
  processValues (i_selectStmt stmt) = Ok []
  /\ (forall insert,
        processInsertStatement stmt = Ok insert ->
        values insert = []
        /\ method (renderHttp (StInsert insert)) = POST
        /\ body (renderHttp (StInsert insert)) = Some (BodyArray []))
  /\ (forall relation cols returning,
        i_relation stmt = Some relation ->
        match i_cols stmt with
        | Some l => forEach columnStep l []
        | None => Ok []
        end = Ok cols ->
        processReturning (i_returningList stmt) = Ok returning ->
        i_onConflictClause stmt = false ->
        processInsertStatement stmt
        = Ok {| into := relname relation; columns := cols; values := [];
                insert_returning := returning |}).
Proof.
  intros Hrows.
  assert (Hvalues : processValues (i_selectStmt stmt) = Ok []).
  { destruct Hrows as [->|(s & -> & Hs)]; simpl; [reflexivity|now rewrite Hs]. }
  split; [exact Hvalues|]. split.
  - intros insert. unfold processInsertStatement. rewrite Hvalues.
    destruct (i_relation stmt) as [relation|]; [|discriminate].
    destruct (match i_cols stmt with Some _ => _ | None => _ end) as [cols|e];
      [|discriminate].
    cbn [bind].
    destruct (processReturning (i_returningList stmt)) as [returning|e];
      [|discriminate].
    cbn [bind].
    destruct (i_onConflictClause stmt); [discriminate|].
    intros [= <-]. repeat split.
  - intros relation cols returning Hrel Hcols Hret Hconf.
    unfold processInsertStatement.
    rewrite Hrel, Hcols, Hvalues, Hret, Hconf. reflexivity.
Qed.

(** C10. A RETURNING entry that is a column reference without any [String]
    segment, as the star of [RETURNING *], raises no error and adds nothing
    to the list, wherever it stands in it; a list made of such entries
    gives the empty list, and the renderer treats the empty list as it
    treats a missing one: it sets no [select]. *)
Theorem segmentless_returning_dropped :
  (forall before item after returning,
      segmentless item = true ->
      forEach returningStep (before ++ item :: after) returning
      = forEach returningStep (before ++ after) returning)
  /\ (forall l,
        forallb segmentless l = true -> processReturning (Some l) = Ok (Some []))
  /\ processReturning (Some [ResTarget None (ColumnRef [FA_Star])]) = Ok (Some [])
  /\ (forall ps, setReturning ps (Some []) = ps)
  /\ (forall i c v,
        renderHttp (StInsert (mkInsert i c v (Some [])))
        = renderHttp (StInsert (mkInsert i c v None))
        /\ params (renderHttp (StInsert (mkInsert i c v (Some [])))) = [])
  /\ (forall t s f,
        renderHttp (StUpdate (mkUpdate t s f (Some [])))
        = renderHttp (StUpdate (mkUpdate t s f None)))
  /\ (forall t f,
        renderHttp (StDelete (mkDelete t f (Some [])))
        = renderHttp (StDelete (mkDelete t f None))).
Proof.
  repeat split.
  - intros before item after returning H.
    rewrite !forEach_app. destruct (forEach returningStep before returning) as [acc|e];
      simpl; [|reflexivity].
    now rewrite (returningStep_segmentless _ _ H).
  - intros l H. simpl. now rewrite forEach_returningStep_segmentless.
Qed.

End Pipeline.

(** * The statements at work *)

(** [delete from books where id = 1] is [DELETE /books?id=eq.1]. *)
Example delete_scenario :
  (let* statement :=
     processSql (imports := sample_imports) "delete from books where id = 1" in
   Ok (renderHttp (util := spec_util)
         statement))
  = Ok (mkHttpRequest DELETE "/books" [("id", "eq.1")] None "/books?id=eq.1").
Proof. reflexivity. Qed.

(** [update books set year = 2000 where id = 1 returning id, year] is
    [PATCH /books?select=id,year&id=eq.1] with the body [{"year": 2000}]. *)
Example update_scenario :
  (let* update := processUpdateStatement (imports := sample_imports) updateBook in
   Ok (renderHttp (util := spec_util)
         (StUpdate update)))
  = Ok (mkHttpRequest PATCH "/books" [("select", "id,year"); ("id", "eq.1")]
          (Some (BodyObject {[ "year" := Some (VScalar (SNumber 2000)) ]}))
          "/books?select=id,year&id=eq.1").
Proof. vm_compute. reflexivity. Qed.

(** The INSERT of two books is [POST /books?select=id] with an array of two
    objects. *)
Example insert_scenario :
  (let* insert := processInsertStatement (imports := sample_imports) insertBooks in
   Ok (renderHttp (util := spec_util) (StInsert insert)))
  = Ok (mkHttpRequest POST "/books" [("select", "id")]
          (Some (BodyArray
                   [{[ "title" := Some (VScalar (SString "X"));
                       "year" := Some (VScalar (SNumber 1999)) ]};
                    {[ "title" := Some (VScalar (SString "Y"));
                       "year" := Some (VScalar (SNumber 2001)) ]}]))
          "/books?select=id").
Proof. vm_compute. reflexivity. Qed.

(** The SELECT of two columns with a filter, a sort and a limit. *)
Example select_scenario :
  fullPath (renderHttp (util := spec_util) (StSelect selectBooks))
  = "/books?select=title,author&id=eq.1&order=title.desc&limit=10".
Proof. reflexivity. Qed.

(** A statement that the parser rejects at a cursor position is a
    [ParsingError]. *)
Example parse_failure :
  processSql (imports := sample_imports) "selec 1"
  = Err (ParsingError "syntax error" "" 0).
Proof. reflexivity. Qed.

(** ** C1 *)

Lemma renderFilterRoot_flattens_witness :
  renderFilterRoot (util := spec_util) [("select", "title")]
    (LogicalFilter and_ false
       [idIsOne;
        LogicalFilter and_ false
          [ColumnFilter "year" Op.lt false (Atom (SNumber 2000));
           LogicalFilter or_ true [idIsOne; idIsOne]];
        LogicalFilter and_ true [idIsOne]])
  = [("select", "title"); ("id", "eq.1"); ("year", "lt.2000");
     ("or", "not.(id.eq.1,id.eq.1)"); ("and", "not.(id.eq.1)")].
Proof.
  etransitivity.
  - apply (proj1 (proj2 (renderFilterRoot_flattens (util := spec_util) _ _))).
  - reflexivity.
Defined.

(** ** C2 *)

Lemma titleIsLike_nonBasic : containsNonBasic titleIsLike.
Proof.
  exists "title", Op.like, false, (Atom (SString "%war%")).
  split; [constructor|].
  unfold allowedOperators. rewrite !elem_of_cons, elem_of_nil.
  intuition discriminate.
Qed.

Lemma where_clause_validation_witness :
  d_relation deleteWar = Some (mkRangeVar "books")
  /\ d_whereClause deleteWar = Some titleIsLike
  /\ processWhereClause (Imports := sample_imports) titleIsLike
       (mkRelations "books" []) = Ok titleIsLike
  /\ processDeleteStatement (imports := sample_imports) deleteWar
     = Err (UnsupportedError
              "DELETE WHERE clause only supports basic operators: eq, neq, gt, gte, lt, lte")
  /\ validateBasicFilters "UPDATE" (LogicalFilter or_ true [idIsOne; idIsOne])
     = Ok tt.
Proof.
  split; [reflexivity|]. split; [reflexivity|]. split; [reflexivity|]. split.
  - apply (proj2 (proj2 (proj2 (proj2
             (where_clause_validation (imports := sample_imports)))))
             deleteWar (mkRangeVar "books") titleIsLike titleIsLike);
      try reflexivity.
    exact titleIsLike_nonBasic.
  - apply (proj1 (proj2 (where_clause_validation (imports := sample_imports)))).
    repeat constructor; exists "id", Op.eq, false, (Atom (SNumber 1));
      (split; [reflexivity|set_solver]).
Defined.

(** ** C3 *)

Lemma fullPath_spec_witness :
  let r := renderHttp (util := spec_util)
             (StDelete (mkDelete "books" (Some idIsOne) None)) in
  String.prefix (path r) (fullPath r) = true
  /\ (fullPath r = path r <-> params r = [])
  /\ fullPath r = "/books?id=eq.1".
Proof.
  exact (fullPath_spec (util := spec_util)
           (StDelete (mkDelete "books" (Some idIsOne) None))).
Defined.

(** ** C4 *)


(** ** C5 *)

(** A single [*] with an alias is not the canonical list, and [select] is
    left out all the same. *)
Lemma select_parameter_omitted_counterexample :
  let select := mkSelect "books" [ColumnTarget "*" (Some "everything") None]
                  None None None in
  ~ (params_getAll
       (params (formatSelect (util := spec_util) select)) "select" = []
     <-> select_targets select = canonicalStar).
Proof.
  intros select [H _]. specialize (H eq_refl). discriminate H.
Qed.

Lemma select_parameter_omitted_witness :
  params_getAll
    (params (formatSelect (util := spec_util)
               (mkSelect "books"
                  [ColumnTarget "title" None None; ColumnTarget "author" None None]
                  (Some idIsOne) None None))) "select"
  = ["title,author"].
Proof.
  etransitivity.
  - apply (proj1 (select_parameter_omitted (util := spec_util) _)).
  - reflexivity.
Defined.

(** ** C6 *)

Lemma processSql_single_statement_witness :
  sample_parseQuery "delete from books where id = 1"
  = Parsed (mkParsedQuery [DeleteStmtNode deleteBook])
  /\ processSql (imports := sample_imports) "delete from books where id = 1"
     = processStatement (imports := sample_imports) (DeleteStmtNode deleteBook)
  /\ processSql (imports := sample_imports) ""
     = Err (UnsupportedError "Expected a statement, but received none")
  /\ processSql (imports := sample_imports)
       "delete from books where id = 1; delete from books where id = 1"
     = Err (UnsupportedError "Expected a single statement, but received multiple").
Proof.
  split; [reflexivity|]. split; [|split].
  - apply (processSql_single_statement (imports := sample_imports)
             "delete from books where id = 1"
             (mkParsedQuery [DeleteStmtNode deleteBook])).
    reflexivity.
  - apply (processSql_single_statement (imports := sample_imports) "" (mkParsedQuery [])).
    reflexivity.
  - apply (processSql_single_statement (imports := sample_imports)
             "delete from books where id = 1; delete from books where id = 1"
             (mkParsedQuery [DeleteStmtNode deleteBook; DeleteStmtNode deleteBook])).
    reflexivity.
Defined.

(** ** C7 *)

Lemma limit_offset_emitted_witness :
  let limit := mkLimit (Some (Integer 0 I)) (Some (Integer 25 I)) in
  let select := mkSelect "books" canonicalStar None None (Some limit) in
  let ps := params (formatSelect (util := spec_util) select) in
  select_limit select = Some limit
  /\ params_getAll ps "limit" = ["0"]
  /\ params_getAll ps "offset" = ["25"]
  /\ readDecimal (number_toString (Integer 25 I)) = Some 25%Z.
Proof.
  intros limit select ps. split; [reflexivity|].
  pose proof (limit_offset_emitted (util := spec_util) select limit eq_refl)
    as (Hcount & Hoffset & Hdigits & _).
  split; [exact Hcount|]. split; [exact Hoffset|].
  exact (proj2 (Hdigits 25%Z I)).
Defined.

(** ** C8 *)

(** C8. For [insert into t (a) values (1) returning t."a.b"] the reference
    has the segments [t] and [a.b]; the last segment is [a.b], and the
    processor keeps [b]. *)
Theorem returning_dotted_segment :
  columnName [FString "t"; FString "a.b"] = Some "b"
  /\ processInsertStatement (imports := sample_imports) insertReturningDotted
     = Ok {| into := "t"; columns := ["a"]; values := [[VScalar (SNumber 1)]];
             insert_returning := Some ["b"] |}.
Proof. split; reflexivity. Qed.

(** ** C9 *)

Lemma insert_without_rows_witness :
  i_selectStmt insertDefaultValues = None
  /\ processInsertStatement (imports := sample_imports) insertDefaultValues
     = Ok {| into := "books"; columns := []; values := [];
             insert_returning := None |}
  /\ body (renderHttp (util := spec_util)
             (StInsert {| into := "books"; columns := []; values := [];
                          insert_returning := None |}))
     = Some (BodyArray []).
Proof.
  split; [reflexivity|].
  pose proof (insert_without_rows (util := spec_util) (imports := sample_imports) insertDefaultValues
                (or_introl eq_refl)) as (_ & Hbody & Hok).
  specialize (Hok (mkRangeVar "books") [] None eq_refl eq_refl eq_refl eq_refl).
  split; [exact Hok|].
  exact (proj2 (proj2 (Hbody _ Hok))).
Defined.

(** ** C10 *)

Lemma segmentless_returning_dropped_witness :
  segmentless (ResTarget None (ColumnRef [FA_Star])) = true
  /\ forEach returningStep
       ([ResTarget None (ColumnRef [FString "id"])]
          ++ ResTarget None (ColumnRef [FA_Star])
          :: [ResTarget None (ColumnRef [FString "year"])]) []
     = Ok ["id"; "year"].
Proof.
  split; [reflexivity|].
  etransitivity.
  - apply (proj1 (segmentless_returning_dropped (util := spec_util))).
    reflexivity.
  - reflexivity.
Defined.

(** * Further properties of the processors *)

(** ** The dispatcher *)

Lemma substring_0_length_append (s t : string) :
  String.substring 0 (String.length s) (s +:+ t) = s.
Proof.
  induction s as [|c s IH]; simpl.
  - now destruct t.
  - change (String c s +:+ t) with (String c (s +:+ t)). now rewrite IH.
Qed.

Lemma substring_length_append (s t : string) (m : nat) :
  String.substring (String.length s) m (s +:+ t) = String.substring 0 m t.
Proof.
  induction s as [|c s IH]; [reflexivity|].
  change (String c s +:+ t) with (String c (s +:+ t)). simpl. exact IH.
Qed.

Lemma substring_0_length (s : string) :
  String.substring 0 (String.length s) s = s.
Proof. induction s as [|c s IH]; simpl; [reflexivity|now rewrite IH]. Qed.

Lemma substring_split (s : string) (k : nat) :
  k <= String.length s ->
  String.substring 0 k s +:+ String.substring k (String.length s - k) s = s.
Proof.
  revert k. induction s as [|c s IH]; intros k Hk; simpl in Hk.
  - now replace k with 0 by lia.
  - destruct k as [|k].
    + change (String c (String.substring 0 (String.length s) s) = String c s).
      now rewrite substring_0_length.
    + change (String c (String.substring 0 k s
                        +:+ String.substring k (String.length s - k) s)
              = String c s).
      now rewrite IH by lia.
Qed.

Lemma removeStmtSuffix_suffix (kind : string) :
  removeStmtSuffix (kind +:+ "Stmt") = kind.
Proof.
  unfold removeStmtSuffix. rewrite string_length_append.
  change (String.length "Stmt") with 4.
  destruct (decide (4 <= String.length kind + 4)) as [_|H]; [|lia].
  replace (String.length kind + 4 - 4) with (String.length kind) by lia.
  rewrite substring_length_append, substring_0_length_append.
  reflexivity.
Qed.

Lemma removeStmtSuffix_other (key : string) :
  (forall kind, key <> kind +:+ "Stmt") -> removeStmtSuffix key = key.
Proof.
  intros H. unfold removeStmtSuffix.
  destruct (decide (4 <= String.length key)) as [Hlen|_]; [|reflexivity].
  destruct (String.eqb_spec
              (String.substring (String.length key - 4) 4 key) "Stmt")
    as [Heq|_]; [|reflexivity].
  exfalso. apply (H (String.substring 0 (String.length key - 4) key)).
  pose proof (substring_split key (String.length key - 4)) as Hsplit.
  replace (String.length key - (String.length key - 4)) with 4 in Hsplit by lia.
  rewrite Heq in Hsplit. symmetry. apply Hsplit. lia.
Qed.

Section Dispatcher.

Context {WhereClause SelectStmt : Type}.
Context {imports : Imports WhereClause SelectStmt}.

(** X1. A statement node of a kind other than SELECT, INSERT, UPDATE,
    DELETE and EXPLAIN is refused with UnsupportedError, and the message
    names the kind without the ending [Stmt] of its key; a key that does not
    end in [Stmt] is named whole. *)
Theorem unsupported_statement_kind :
  (forall kind,
      processStatement (OtherStmtNode (kind +:+ "Stmt"))
      = Err (UnsupportedError (kind +:+ " statements are not supported")))
  /\ (forall key,
        (forall kind, key <> kind +:+ "Stmt") ->
        processStatement (OtherStmtNode key)
        = Err (UnsupportedError (key +:+ " statements are not supported"))).
Proof.
  split.
  - intros kind. simpl. now rewrite removeStmtSuffix_suffix.
  - intros key H. simpl. now rewrite removeStmtSuffix_other.
Qed.

(** X2. [processSql] returns a statement only when the parser returned
    exactly one statement node and the processor of that node returned the
    statement: a parser failure, an empty list and a list of several nodes
    never give a result. *)
Theorem processSql_ok_inv sql statement :
  processSql sql = Ok statement ->
  exists stmt,
    parseQuery sql = Parsed (mkParsedQuery [stmt])
    /\ processStatement stmt = Ok statement.
Proof.
  unfold processSql.
  destruct (parseQuery sql) as [[nodes]|message [position|]]; try discriminate.
  cbn [stmts].
  destruct nodes as [|stmt [|stmt' nodes]]; simpl.
  - discriminate.
  - intros H. eauto.
  - destruct (decide (1 < S (S (length nodes)))); [discriminate|lia].
Qed.

End Dispatcher.

(** ** Loops that push *)

Lemma forEach_error {A S : Type} (body : S -> A -> result S) xs s e :
  forEach body xs s = Err e -> exists s' x, x ∈ xs /\ body s' x = Err e.
Proof.
  revert s. induction xs as [|x xs IH]; intros s; simpl; [discriminate|].
  destruct (body s x) as [s'|e'] eqn:E; simpl.
  - intros H. destruct (IH _ H) as (s'' & y & Hy & Hbody).
    exists s'', y. split; [now apply elem_of_cons; right|assumption].
  - intros [= <-]. exists s, x. split; [apply elem_of_cons; now left|assumption].
Qed.


(** A loop whose body pushes at most one value per item and throws one
    error on the items that it refuses. *)
Lemma forEach_keep {A B : Type} (ok : A -> bool) (keep : A -> option B)
    (e0 : Error) (body : list B -> A -> result (list B)) :
  (forall acc x,
      body acc x = if ok x then Ok (acc ++ option_list (keep x)) else Err e0) ->
  forall xs acc,
    forEach body xs acc
    = if forallb ok xs then Ok (acc ++ omap keep xs) else Err e0.
Proof.
  intros Hbody. induction xs as [|x xs IH]; intros acc; simpl.
  - now rewrite app_nil_r.
  - rewrite Hbody. destruct (ok x); simpl; [|reflexivity].
    rewrite IH. destruct (forallb ok xs); [|reflexivity].
    destruct (keep x); simpl; now rewrite <- app_assoc.
Qed.

Lemma columnStep_keep acc col :
  columnStep acc col
  = if isResTarget col
    then Ok (acc ++ option_list (itemName col))
    else Err (UnsupportedError
                "INSERT column specification must be a simple column name").
Proof.
  destruct col as [[name|] val|]; simpl; try reflexivity.
  - destruct (String.eqb name ""); simpl; [now rewrite app_nil_r|reflexivity].
  - now rewrite app_nil_r.
Qed.

Lemma returningStep_keep acc item :
  returningStep acc item
  = if isColumnRef item
    then Ok (acc ++ option_list (keptName item))
    else Err (UnsupportedError
                "RETURNING clause only supports simple column names").
Proof.
  destruct item as [name [fields| |]|]; simpl; try reflexivity.
  destruct (columnName fields) as [n|]; simpl.
  - destruct (String.eqb n ""); simpl; [now rewrite app_nil_r|reflexivity].
  - now rewrite app_nil_r.
Qed.

(** The RETURNING loop as a whole. *)
Lemma processReturning_list l :
  processReturning (Some l)
  = if forallb isColumnRef l
    then Ok (Some (omap keptName l))
    else Err (UnsupportedError
                "RETURNING clause only supports simple column names").
Proof.
  simpl. rewrite (forEach_keep _ _ _ _ returningStep_keep).
  now destruct (forallb isColumnRef l).
Qed.

Lemma valueStep_push acc value :
  valueStep acc value = (let* v := insertValue value in Ok (acc ++ [v])).
Proof. destruct value as [fields|c|]; reflexivity. Qed.

Lemma constValue_error c message e :
  constValue c message = Err e -> e = UnsupportedError message.
Proof.
  unfold constValue.
  destruct (c_sval c) as [[s|]|], (c_ival c) as [[n|]|], (c_fval c) as [[x|]|],
    (c_boolval c) as [b|], (c_Null c); simpl; congruence.
Qed.

Lemma insertValue_error value e :
  insertValue value = Err e -> exists message, e = UnsupportedError message.
Proof.
  destruct value as [fields|c|]; simpl.
  - intros [= <-]. eauto.
  - intros H. apply constValue_error in H. eauto.
  - intros [= <-]. eauto.
Qed.

(** ** RETURNING *)

Lemma split_dot_dotFree_pieces s : Forall (fun piece => dotFree piece = true) (split_dot s).
Proof.
  induction s as [|c s IH]; simpl; [repeat constructor|].
  destruct (Ascii.eqb c ".") eqn:E.
  - constructor; [reflexivity|exact IH].
  - destruct (split_dot s) as [|piece pieces]; [repeat constructor; simpl; now rewrite E|].
    inversion IH as [|? ? Hpiece Hpieces]; subst.
    constructor; [simpl; now rewrite E, Hpiece|exact Hpieces].
Qed.

Lemma columnName_dotFree fields name :
  columnName fields = Some name -> dotFree name = true.
Proof.
  unfold columnName. intros H. apply last_Some in H as [pieces H].
  pose proof (split_dot_dotFree_pieces (join "." (map fieldText fields))) as Hall.
  rewrite H in Hall. apply Forall_app in Hall as [_ Hall].
  now inversion Hall.
Qed.

Lemma keptName_spec item name :
  keptName item = Some name -> name <> "" /\ dotFree name = true.
Proof.
  destruct item as [n [fields| |]|]; simpl; try discriminate.
  destruct (columnName fields) as [kept|] eqn:E; [|discriminate].
  destruct (String.eqb_spec kept ""); [discriminate|].
  intros [= <-]. split; [assumption|]. eapply columnName_dotFree, E.
Qed.

(** X3. The names that the RETURNING loop keeps are those of its entries,
    in order, without the entries whose name comes out empty; every name
    kept is non-empty and has no dot in it.  The loop fails, with
    UnsupportedError, exactly on a list with an entry that is not a column
    reference. *)
Theorem returning_names l :
  (forallb isColumnRef l = true ->
   processReturning (Some l) = Ok (Some (omap keptName l)))
  /\ (forallb isColumnRef l = false ->
      processReturning (Some l)
      = Err (UnsupportedError
               "RETURNING clause only supports simple column names"))
  /\ (forall names,
        processReturning (Some l) = Ok (Some names) ->
        Forall (fun name => name <> "" /\ dotFree name = true) names).
Proof.
  rewrite processReturning_list.
  destruct (forallb isColumnRef l); repeat split; try discriminate.
  intros names [= <-]. apply Forall_forall. intros name Hin.
  apply list_elem_of_omap in Hin as (item & _ & Hkept).
  eapply keptName_spec, Hkept.
Qed.

Lemma omap_cons_Some {A B : Type} (f : A -> option B) x y l :
  f x = Some y -> omap f (x :: l) = y :: omap f l.
Proof. intros H. simpl. now rewrite H. Qed.

Lemma keptName_qualifiedRef qualifiers name :
  name <> "" -> dotFree name = true ->
  keptName (qualifiedRef qualifiers name) = Some name.
Proof.
  intros Hne Hfree. unfold qualifiedRef, keptName.
  rewrite (columnName_last_segment _ _ Hfree).
  now destruct (String.eqb_spec name "").
Qed.

(** X4. For a RETURNING list of references made of [String] segments, each
    ending in a non-empty name without a dot, the list kept is the list of
    those names, in order, whatever qualifies them. *)
Theorem returning_qualified (refs : list (list string * string)) :
  Forall (fun ref => ref.2 <> "" /\ dotFree ref.2 = true) refs ->
  processReturning (Some (map (fun ref => qualifiedRef ref.1 ref.2) refs))
  = Ok (Some (map snd refs)).
Proof.
  intros Hrefs. rewrite processReturning_list.
  assert (Hcols : forallb isColumnRef
                    (map (fun ref => qualifiedRef ref.1 ref.2) refs) = true).
  { apply forallb_forall. intros item Hin. apply in_map_iff in Hin as (ref & <- & _).
    reflexivity. }
  rewrite Hcols. do 2 f_equal.
  induction Hrefs as [|ref refs [Hne Hfree] _ IH]; [reflexivity|].
  cbn [map].
  rewrite (omap_cons_Some keptName _ _ _ (keptName_qualifiedRef ref.1 ref.2 Hne Hfree)).
  now rewrite IH.
Qed.

(** ** INSERT *)

Section InsertFacts.

Context {WhereClause SelectStmt : Type}.
Context {imports : Imports WhereClause SelectStmt}.






(** X7. An INSERT is refused with UnsupportedError and with no other
    error. *)
Theorem insert_errors (stmt : InsertStmt SelectStmt) e :
  processInsertStatement stmt = Err e -> exists message, e = UnsupportedError message.
Proof.
  unfold processInsertStatement.
  destruct (i_relation stmt) as [relation|]; [|intros [= <-]; eauto].
  destruct (match i_cols stmt with Some _ => _ | None => _ end) as [cols|e1] eqn:Ecols.
  2:{ cbn [bind]. intros [= <-]. destruct (i_cols stmt) as [l|]; [|discriminate].
      rewrite (forEach_keep _ _ _ _ columnStep_keep) in Ecols.
      destruct (forallb isResTarget l); [discriminate|]. injection Ecols as <-. eauto. }
  cbn [bind].
  destruct (processValues (i_selectStmt stmt)) as [rows|e2] eqn:Evalues.
  2:{ cbn [bind]. intros [= <-]. unfold processValues in Evalues.
      destruct (i_selectStmt stmt) as [s|]; [|discriminate].
      destruct (valuesLists s) as [lists|]; [|injection Evalues as <-; eauto].
      apply forEach_error in Evalues as (acc & items & _ & Hrow).
      unfold rowStep in Hrow.
      destruct (forEach valueStep items []) as [row|e3] eqn:Eitems; [discriminate|].
      injection Hrow as <-.
      apply forEach_error in Eitems as (acc' & item & _ & Hitem).
      rewrite valueStep_push in Hitem.
      destruct (insertValue item) as [v|e4] eqn:Ev; [discriminate|].
      injection Hitem as <-. eapply insertValue_error, Ev. }
  cbn [bind].
  destruct (processReturning (i_returningList stmt)) as [returning|e5] eqn:Eret.
  2:{ cbn [bind]. intros [= <-]. apply processReturning_error in Eret. eauto. }
  cbn [bind].
  destruct (i_onConflictClause stmt); [intros [= <-]; eauto|discriminate].
Qed.

End InsertFacts.

(** ** UPDATE and DELETE *)

Lemma setStep_ok st target st' :
  setStep st target = Ok st' ->
  exists col c v,
    target = ResTarget (Some col) (A_Const c)
    /\ col <> ""
    /\ constValue c "Unsupported constant type in UPDATE SET clause" = Ok v
    /\ st' = assign isNullValue st col v.
Proof.
  destruct target as [[name|] val|]; simpl; try discriminate.
  destruct (String.eqb_spec name "") as [|Hne]; simpl; [discriminate|].
  destruct val as [fields|c|]; try discriminate.
  destruct (constValue c _) as [v|e] eqn:E; simpl; [|discriminate].
  intros [= <-]. exists name, c, v. repeat split; assumption.
Qed.

Lemma setStep_itemName st target st' col :
  setStep st target = Ok st' -> itemName target <> Some col ->
  st'.1 !! col = st.1 !! col.
Proof.
  intros H Hne. apply setStep_ok in H as (name & c & v & -> & Hname & _ & ->).
  simpl in Hne. destruct (String.eqb_spec name ""); [contradiction|].
  apply assign_lookup_ne. congruence.
Qed.

(** The assignments to other columns leave a column as it is. *)
Lemma forEach_setStep_other targets col :
  forall st st',
    forEach setStep targets st = Ok st' ->
    Forall (fun item => itemName item <> Some col) targets ->
    st'.1 !! col = st.1 !! col.
Proof.
  induction targets as [|target targets IH]; intros st st'; simpl.
  - now intros [= <-].
  - destruct (setStep st target) as [st1|e] eqn:E; simpl; [|discriminate].
    intros H Hall. inversion Hall as [|? ? Hhd Htl]; subst.
    rewrite (IH _ _ H Htl). eapply setStep_itemName; eassumption.
Qed.

(** A key of the mapping is a key it had or a name assigned; a name other
    than [__proto__] that is assigned is a key. *)
Lemma forEach_setStep_keys targets col :
  forall st st',
    forEach setStep targets st = Ok st' ->
    (is_Some (st'.1 !! col) ->
     is_Some (st.1 !! col) \/ exists item, item ∈ targets /\ itemName item = Some col)
    /\ (col <> "__proto__" ->
        is_Some (st.1 !! col) \/ (exists item, item ∈ targets /\ itemName item = Some col) ->
        is_Some (st'.1 !! col)).
Proof.
  induction targets as [|target targets IH]; intros st st'; simpl.
  - intros [= <-]. split; [now left|]. intros _ [H|(item & Hin & _)]; [exact H|].
    now apply elem_of_nil in Hin.
  - destruct (setStep st target) as [st1|e] eqn:E; simpl; [|discriminate].
    intros H. destruct (IH _ _ H) as [IH1 IH2].
    apply setStep_ok in E as (name & c & v & -> & Hname & _ & ->).
    assert (Hitem : itemName (ResTarget (Some name) (A_Const c)) = Some name).
    { simpl. now destruct (String.eqb_spec name ""). }
    split.
    + intros Hsome. destruct (IH1 Hsome) as [[w Hw]|(item & Hin & Hn)].
      * apply assign_lookup_inv in Hw as [Hw|[-> _]]; [left; eauto|].
        right. eexists. split; [apply elem_of_cons; now left|exact Hitem].
      * right. exists item. split; [apply elem_of_cons; now right|assumption].
    + intros Hcol Hor. apply (IH2 Hcol).
      destruct (decide (name = col)) as [->|Hne].
      * left. rewrite assign_lookup_eq by assumption. eauto.
      * rewrite assign_lookup_ne by assumption.
        destruct Hor as [Hm|(item & Hin & Hn)]; [now left|].
        apply elem_of_cons in Hin as [->|Hin].
        -- rewrite Hitem in Hn. congruence.
        -- right. eauto.
Qed.

(** As long as no assignment gives [null] to [__proto__], the mapping keeps
    the prototype of a plain object and gets no key [__proto__]. *)
Lemma forEach_setStep_proto targets :
  forall st st',
    forEach setStep targets st = Ok st' ->
    (forall c,
        ResTarget (Some "__proto__") (A_Const c) ∈ targets ->
        constValue c "Unsupported constant type in UPDATE SET clause"
        <> Ok (VScalar SNull)) ->
    st.2 = false /\ st.1 !! "__proto__" = None ->
    st'.2 = false /\ st'.1 !! "__proto__" = None.
Proof.
  induction targets as [|target targets IH]; intros st st'; simpl.
  - now intros [= <-].
  - destruct (setStep st target) as [st1|e] eqn:E; simpl; [|discriminate].
    intros H Hnull Hst. apply (IH _ _ H).
    + intros c Hc. apply Hnull, elem_of_cons. now right.
    + apply setStep_ok in E as (name & c & v & -> & _ & Hv & ->).
      apply assign_proto_absent; [|exact Hst].
      intros ->. destruct v as [[]|]; try reflexivity.
      exfalso. apply (Hnull c); [apply elem_of_cons; now left|exact Hv].
Qed.

Section UpdateFacts.

Context {WhereClause SelectStmt : Type}.
Context {imports : Imports WhereClause SelectStmt}.

(** What a successful UPDATE went through. *)
Lemma processUpdateStatement_ok_inv (stmt : UpdateStmt WhereClause) update :
  processUpdateStatement stmt = Ok update ->
  exists relation targets setClause,
    u_relation stmt = Some relation
    /\ table update = relname relation
    /\ u_targetList stmt = Some targets
    /\ forEach setStep targets (∅, false) = Ok setClause
    /\ set update = setClause.1
    /\ processWhere "UPDATE" (relname relation) (u_whereClause stmt)
       = Ok (update_filter update)
    /\ processReturning (u_returningList stmt) = Ok (update_returning update).
Proof.
  unfold processUpdateStatement.
  destruct (u_relation stmt) as [relation|]; [|discriminate].
  destruct (u_targetList stmt) as [targets|]; [|discriminate].
  destruct (forEach setStep targets (∅, false)) as [m|e] eqn:Eset; [|discriminate].
  cbn [bind].
  destruct (processWhere "UPDATE" _ _) as [f|e] eqn:Ewhere; [|discriminate].
  cbn [bind].
  destruct (processReturning (u_returningList stmt)) as [r|e]; [|discriminate].
  intros [= <-]. exists relation, targets, m. repeat split; assumption.
Qed.

Lemma processDeleteStatement_ok_inv (stmt : DeleteStmt WhereClause) delete :
  processDeleteStatement stmt = Ok delete ->
  exists relation,
    d_relation stmt = Some relation
    /\ delete_from delete = relname relation
    /\ processWhere "DELETE" (relname relation) (d_whereClause stmt)
       = Ok (delete_filter delete)
    /\ processReturning (d_returningList stmt) = Ok (delete_returning delete).
Proof.
  unfold processDeleteStatement.
  destruct (d_relation stmt) as [relation|]; [|discriminate].
  destruct (processWhere "DELETE" _ _) as [f|e] eqn:Ewhere; [|discriminate].
  cbn [bind].
  destruct (processReturning (d_returningList stmt)) as [r|e]; [|discriminate].
  intros [= <-]. exists relation. repeat split; assumption.
Qed.

(** What the WHERE step returns when it returns. *)
Lemma processWhere_ok_inv kind tableName whereClause filter :
  processWhere kind tableName whereClause = Ok filter ->
  match whereClause with
  | Some w =>
      exists f,
        filter = Some f
        /\ processWhereClause w (mkRelations tableName []) = Ok f
        /\ allBasic f
  | None => filter = None
  end.
Proof.
  unfold processWhere. destruct whereClause as [w|]; [|now intros [= <-]].
  destruct (processWhereClause w _) as [f|e]; [|discriminate].
  cbn [bind].
  destruct (validateBasicFilters_cases kind f) as [[Hok Hall]|[Herr _]].
  - rewrite Hok. intros [= <-]. eauto.
  - rewrite Herr. discriminate.
Qed.

Lemma processWhere_error kind tableName whereClause e :
  processWhere kind tableName whereClause = Err e ->
  (exists message, e = UnsupportedError message)
  \/ (exists w,
         whereClause = Some w
         /\ processWhereClause w (mkRelations tableName []) = Err e).
Proof.
  unfold processWhere. destruct whereClause as [w|]; [|discriminate].
  destruct (processWhereClause w _) as [f|e'] eqn:E.
  - cbn [bind].
    destruct (validateBasicFilters_cases kind f) as [[Hok _]|[Herr _]].
    + rewrite Hok. discriminate.
    + rewrite Herr. intros [= <-]. left. eauto.
  - intros [= <-]. right. eauto.
Qed.

(** X8. The SET mapping of an accepted UPDATE is the object that the
    assignments of the SET clause leave.  Each of its keys is a column that
    the clause names.  A column other than [__proto__] is a key exactly when
    the clause names it, and holds what the last assignment to it hands
    over.  The column [__proto__] is no key unless some assignment gives it
    [null]. *)
Theorem update_set (stmt : UpdateStmt WhereClause) update targets :
  processUpdateStatement stmt = Ok update ->
  u_targetList stmt = Some targets ->
  (forall col,
      is_Some (set update !! col) ->
      exists item, item ∈ targets /\ itemName item = Some col)
  /\ (forall col,
        col <> "__proto__" ->
        (exists item, item ∈ targets /\ itemName item = Some col) ->
        is_Some (set update !! col))
  /\ (forall before col c after,
        col <> "__proto__" ->
        targets = before ++ ResTarget (Some col) (A_Const c) :: after ->
        Forall (fun item => itemName item <> Some col) after ->
        exists v,
          constValue c "Unsupported constant type in UPDATE SET clause" = Ok v
          /\ set update !! col = Some v)
  /\ ((forall c,
          ResTarget (Some "__proto__") (A_Const c) ∈ targets ->
          constValue c "Unsupported constant type in UPDATE SET clause"
          <> Ok (VScalar SNull)) ->
      set update !! "__proto__" = None).
Proof.
  intros H Htargets.
  apply processUpdateStatement_ok_inv in H
    as (rel & targets' & st & _ & _ & Htl & Hset & -> & _).
  rewrite Htargets in Htl. injection Htl as <-.

  repeat split.
  - intros col Hsome.
    destruct (proj1 (forEach_setStep_keys _ col _ _ Hset) Hsome) as [[v Hv]|Hitem];
      [|exact Hitem].
    simpl in Hv. now rewrite lookup_empty in Hv.
  - intros col Hcol Hitem.
    apply (proj2 (forEach_setStep_keys _ col _ _ Hset) Hcol). now right.
  - intros before col c after Hcol -> Hafter.
    rewrite forEach_app in Hset.
    destruct (forEach setStep before (∅, false)) as [st1|e]; [|discriminate].
    cbn [bind forEach] in Hset.
    destruct (setStep st1 (ResTarget (Some col) (A_Const c))) as [st2|e] eqn:E;
      [|discriminate].
    cbn [bind] in Hset.
    rewrite (forEach_setStep_other _ col _ _ Hset Hafter).
    apply setStep_ok in E as (name & c' & v & [= <- <-] & _ & Hv & ->).
    exists v. split; [exact Hv|now apply assign_lookup_eq].
  - intros Hnull.
    now apply (forEach_setStep_proto _ _ _ Hset Hnull).
Qed.

(** X9. The filter of an accepted UPDATE or DELETE is there exactly when
    the statement has a WHERE clause; it is the tree that the walker gave
    for the clause, and each of its column filters has a basic operator. *)
Theorem accepted_filter_basic :
  (forall (stmt : UpdateStmt WhereClause) update,
      processUpdateStatement stmt = Ok update ->
      match u_whereClause stmt with
      | Some w =>
          exists f,
            update_filter update = Some f
            /\ processWhereClause w (mkRelations (table update) []) = Ok f
            /\ allBasic f
      | None => update_filter update = None
      end)
  /\ (forall (stmt : DeleteStmt WhereClause) delete,
        processDeleteStatement stmt = Ok delete ->
        match d_whereClause stmt with
        | Some w =>
            exists f,
              delete_filter delete = Some f
              /\ processWhereClause w (mkRelations (delete_from delete) []) = Ok f
              /\ allBasic f
        | None => delete_filter delete = None
        end).
Proof.
  split.
  - intros stmt update H.
    apply processUpdateStatement_ok_inv in H
      as (rel & targets & st & _ & -> & _ & _ & _ & Hwhere & _).
    apply processWhere_ok_inv in Hwhere. exact Hwhere.
  - intros stmt delete H.
    apply processDeleteStatement_ok_inv in H as (rel & _ & -> & Hwhere & _).
    apply processWhere_ok_inv in Hwhere. exact Hwhere.
Qed.

End UpdateFacts.

(** ** Errors of UPDATE and DELETE, and the validator on a logical filter *)

Lemma setStep_error m target e :
  setStep m target = Err e -> exists message, e = UnsupportedError message.
Proof.
  destruct target as [[name|] val|]; simpl; try (intros [= <-]; eauto).
  destruct (String.eqb name ""); simpl; [intros [= <-]; eauto|].
  destruct val as [fields|c|]; try (intros [= <-]; eauto).
  destruct (constValue c _) as [v|e'] eqn:E; simpl; [discriminate|].
  intros [= <-]. apply constValue_error in E. eauto.
Qed.

Lemma validate_children_ok kind values :
  forEach (fun _ subFilter => validateBasicFilters kind subFilter) values tt = Ok tt
  <-> Forall (fun f => validateBasicFilters kind f = Ok tt) values.
Proof.
  induction values as [|f values IH]; simpl.
  - split; [constructor|reflexivity].
  - destruct (validateBasicFilters kind f) as [[]|e] eqn:E; simpl.
    + rewrite IH. split.
      * intros H. now constructor.
      * intros H. now inversion H.
    + split; [discriminate|]. intros H. inversion H; subst. congruence.
Qed.

Section UpdateDeleteErrors.

Context {WhereClause SelectStmt : Type}.
Context {imports : Imports WhereClause SelectStmt}.

(** X10. An UPDATE or a DELETE is refused with UnsupportedError, or else
    with the error that the walker of the WHERE clause threw, which is
    passed on as it is. *)
Theorem update_delete_errors :
  (forall (stmt : UpdateStmt WhereClause) e,
      processUpdateStatement stmt = Err e ->
      (exists message, e = UnsupportedError message)
      \/ (exists relation w,
             u_relation stmt = Some relation
             /\ u_whereClause stmt = Some w
             /\ processWhereClause w (mkRelations (relname relation) []) = Err e))
  /\ (forall (stmt : DeleteStmt WhereClause) e,
        processDeleteStatement stmt = Err e ->
        (exists message, e = UnsupportedError message)
        \/ (exists relation w,
               d_relation stmt = Some relation
               /\ d_whereClause stmt = Some w
               /\ processWhereClause w (mkRelations (relname relation) []) = Err e)).
Proof.
  split.
  - intros stmt e. unfold processUpdateStatement.
    destruct (u_relation stmt) as [relation|]; [|intros [= <-]; left; eauto].
    destruct (u_targetList stmt) as [targets|]; [|intros [= <-]; left; eauto].
    destruct (forEach setStep targets (∅, false)) as [m|e1] eqn:Eset.
    2:{ intros [= <-]. left.
        apply forEach_error in Eset as (m' & target & _ & Hstep).
        eapply setStep_error, Hstep. }
    cbn [bind].
    destruct (processWhere "UPDATE" _ _) as [f|e2] eqn:Ewhere.
    2:{ intros [= <-]. apply processWhere_error in Ewhere as [H|(w & Hw & Herr)];
          [now left|right; eauto]. }
    cbn [bind].
    destruct (processReturning (u_returningList stmt)) as [r|e3] eqn:Eret;
      [discriminate|].
    intros [= <-]. left. apply processReturning_error in Eret. eauto.
  - intros stmt e. unfold processDeleteStatement.
    destruct (d_relation stmt) as [relation|]; [|intros [= <-]; left; eauto].
    destruct (processWhere "DELETE" _ _) as [f|e2] eqn:Ewhere.
    2:{ intros [= <-]. apply processWhere_error in Ewhere as [H|(w & Hw & Herr)];
          [now left|right; eauto]. }
    cbn [bind].
    destruct (processReturning (d_returningList stmt)) as [r|e3] eqn:Eret;
      [discriminate|].
    intros [= <-]. left. apply processReturning_error in Eret. eauto.
Qed.

End UpdateDeleteErrors.

(** X11. The validator accepts a logical filter exactly when it accepts
    each of its children, whatever the operator and the negation of the
    filter, a filter without children included; and the two copies of the
    validator, of UPDATE and of DELETE, accept the same trees. *)
Theorem validator_logical :
  (forall kind operator negate values,
      validateBasicFilters kind (LogicalFilter operator negate values) = Ok tt
      <-> Forall (fun f => validateBasicFilters kind f = Ok tt) values)
  /\ (forall f,
        validateBasicFilters "UPDATE" f = Ok tt
        <-> validateBasicFilters "DELETE" f = Ok tt).
Proof.
  split.
  - intros kind operator negate values. apply validate_children_ok.
  - intros f. now rewrite !validateBasicFilters_accepts.
Qed.

(** * Further properties of the renderer *)

Lemma params_set_fresh ps key value :
  Forall (fun kv => kv.1 <> key) ps ->
  params_set ps key value = ps ++ [(key, value)].
Proof.
  induction 1 as [|[k v] ps Hk _ IH]; simpl; [reflexivity|].
  simpl in Hk. destruct (String.eqb_spec k key); [contradiction|].
  now rewrite IH.
Qed.

Lemma setReturning_nil returning : setReturning [] returning = returningParams returning.
Proof. destruct returning as [[|c cs]|]; reflexivity. Qed.

Lemma lastIndexOf_NoDup cols i col :
  NoDup cols -> cols !! i = Some col -> lastIndexOf col cols = Some i.
Proof.
  intros Hnd. revert i. induction Hnd as [|c cols Hc Hnd IH]; intros i; simpl.
  - discriminate.
  - destruct i as [|i]; simpl.
    + intros [= ->].
      destruct (lastIndexOf col cols) as [j|] eqn:E.
      * exfalso. apply Hc. apply lastIndexOf_lt in E as Hlt.
        clear -E. revert j E. induction cols as [|d cols IHc]; intros j; simpl;
          [discriminate|].
        destruct (lastIndexOf col cols) as [k|] eqn:Ek.
        -- intros _. apply elem_of_cons. right. eapply IHc. reflexivity.
        -- destruct (String.eqb_spec d col) as [->|]; [|discriminate].
           intros _. apply elem_of_cons. now left.
      * now rewrite String.eqb_refl.
    + intros H. now rewrite (IH _ H).
Qed.

Lemma lastIndexOf_None col cols : col ∉ cols -> lastIndexOf col cols = None.
Proof.
  intros Hnot. destruct (lastIndexOf col cols) as [i|] eqn:E; [|reflexivity].
  exfalso. apply Hnot. revert i E.
  induction cols as [|d cols IH]; intros i; simpl; [discriminate|].
  destruct (lastIndexOf col cols) as [k|] eqn:Ek.
  - intros _. apply elem_of_cons. right. eapply IH; [|reflexivity].
    intros Hin. apply Hnot. apply elem_of_cons. now right.
  - destruct (String.eqb_spec d col) as [->|]; [|discriminate].
    intros _. apply elem_of_cons. now left.
Qed.

(** With a column list without repetition the object of a row gets no key
    [__proto__]: the one assignment to it, if there is one, goes to the
    prototype. *)
Lemma buildRow_proto cols row :
  NoDup cols ->
  (buildRow cols row).1 !! "__proto__" = None
  /\ ("__proto__" ∉ cols -> (buildRow cols row).2 = false).
Proof.
  induction cols as [|c cols IH] using rev_ind; intros Hnd.
  - split; reflexivity.
  - apply NoDup_app in Hnd as (Hnd & Hc & _).
    destruct (IH Hnd) as [Hkey Hflag]. rewrite buildRow_snoc.
    destruct (decide (c = "__proto__")) as [->|Hne].
    + split.
      * unfold assign. rewrite Hflag; [exact Hkey|].
        intros Hin. apply (Hc _ Hin), elem_of_cons. now left.
      * intros Hnot. exfalso. apply Hnot, elem_of_app. right.
        apply elem_of_cons. now left.
    + split.
      * now rewrite assign_lookup_ne.
      * intros Hnot. unfold assign.
        destruct (String.eqb_spec c "__proto__"); [contradiction|]. simpl.
        apply Hflag. intros Hin. apply Hnot, elem_of_app. now left.
Qed.

Lemma rowObject_proto cols row :
  NoDup cols -> rowObject cols row !! "__proto__" = None.
Proof. intros Hnd. apply (buildRow_proto cols row Hnd). Qed.

Section RendererFacts.

Context {util : RendererUtil}.

(** X12. The filter-root routine leaves the parameters it is given as they
    are and adds its own after them, one for each root filter.  A
    non-negated [and] of a list cut in two is rendered as the first part
    and then the second; a non-negated [and] of two non-negated [and]s is
    rendered as the [and] of all their children, and one of a single child
    as the child. *)
Theorem root_routine_composes ps f xs ys :
  renderFilterRoot ps f = ps ++ renderFilterRoot [] f
  /\ length (renderFilterRoot ps f) = length ps + length (rootFilters f)
  /\ renderFilterRoot ps (LogicalFilter and_ false (xs ++ ys))
     = renderFilterRoot (renderFilterRoot ps (LogicalFilter and_ false xs))
         (LogicalFilter and_ false ys)
  /\ renderFilterRoot ps
       (LogicalFilter and_ false
          [LogicalFilter and_ false xs; LogicalFilter and_ false ys])
     = renderFilterRoot ps (LogicalFilter and_ false (xs ++ ys))
  /\ renderFilterRoot ps (LogicalFilter and_ false [f]) = renderFilterRoot ps f.
Proof.
  repeat split.
  - now rewrite (renderFilterRoot_rootFilters f ps), (renderFilterRoot_rootFilters f []).
  - now rewrite renderFilterRoot_rootFilters, length_app, length_map.
  - simpl. now rewrite fold_left_app.
  - simpl. now rewrite fold_left_app.
Qed.

(** X13. The query string of an INSERT, an UPDATE and a DELETE: the
    [select] of a non-empty RETURNING list comes first, with the names
    joined by commas, and the root filters of the WHERE clause follow, in
    order; an INSERT has nothing else, and none of the pairs is replaced or
    dropped. *)
Theorem write_params :
  (forall insert,
      params (renderHttp (StInsert insert))
      = returningParams (insert_returning insert))
  /\ (forall update,
        params (renderHttp (StUpdate update))
        = returningParams (update_returning update)
          ++ filterParams (update_filter update))
  /\ (forall delete,
        params (renderHttp (StDelete delete))
        = returningParams (delete_returning delete)
          ++ filterParams (delete_filter delete)).
Proof.
  repeat split.
  - intros insert. apply setReturning_nil.
  - intros update. simpl. now rewrite filter_stage, setReturning_nil.
  - intros delete. simpl. now rewrite filter_stage, setReturning_nil.
Qed.

End RendererFacts.

(** ** The query string of a SELECT *)

Section SelectFacts.

Context {util : RendererUtil}.

Lemma select_stage targets :
  (if selectWanted targets
   then params_set [] "select" (renderTargets targets)
   else []) = targetParams targets.
Proof.
  unfold targetParams. rewrite selectWanted_loneStarOrEmpty.
  now destruct (loneStarOrEmpty targets).
Qed.

Lemma targetParams_keys targets key :
  key <> "select" -> Forall (fun kv => kv.1 <> key) (targetParams targets).
Proof.
  intros H. unfold targetParams.
  destruct (loneStarOrEmpty targets); repeat constructor. simpl. congruence.
Qed.

Lemma order_stage ps sorts :
  Forall (fun kv => kv.1 <> "order") ps ->
  match sorts with
  | Some l =>
      if decide (0 < length (map sortValue l))
      then params_set ps "order" (join "," (map sortValue l))
      else ps
  | None => ps
  end = ps ++ orderParams sorts.
Proof.
  intros Hps. destruct sorts as [[|s l]|]; simpl;
    rewrite ?app_nil_r; try reflexivity.
  destruct (decide (0 < S (length (map sortValue l)))) as [_|H]; [|lia].
  now apply params_set_fresh.
Qed.

Lemma limit_stage ps limit :
  Forall (fun kv => kv.1 <> "limit") ps ->
  Forall (fun kv => kv.1 <> "offset") ps ->
  match limit with
  | Some l =>
      let ps1 :=
        match count l with
        | Some c => params_set ps "limit" (number_toString c)
        | None => ps
        end in
      match offset l with
      | Some o => params_set ps1 "offset" (number_toString o)
      | None => ps1
      end
  | None => ps
  end = ps ++ limitParams limit.
Proof.
  intros Hl Ho. destruct limit as [[[c|] [o|]]|]; simpl; rewrite ?app_nil_r;
    try reflexivity.
  - rewrite (params_set_fresh ps "limit") by assumption.
    rewrite params_set_fresh; [now rewrite <- app_assoc|].
    apply Forall_app. split; [assumption|]. repeat constructor. discriminate.
  - now apply params_set_fresh.
  - now apply params_set_fresh.
Qed.

Lemma setLater_false key :
  setLater key = false -> key <> "order" /\ key <> "limit" /\ key <> "offset".
Proof.
  unfold setLater. intros H.
  apply orb_false_iff in H as [H Ho]. apply orb_false_iff in H as [Hor Hl].
  apply String.eqb_neq in Ho, Hor, Hl. auto.
Qed.

(** X14. When the filter of a SELECT puts nothing under the keys [order],
    [limit] and [offset], the query string is, in this order: the [select]
    of the targets, the root filters, the [order] of a non-empty list of
    sorts, the [limit] and the [offset]; nothing else is in it. *)
Theorem select_params select :
  Forall (fun kv => setLater kv.1 = false) (filterParams (select_filter select)) ->
  params (formatSelect select)
  = targetParams (select_targets select)
    ++ filterParams (select_filter select)
    ++ orderParams (select_sorts select)
    ++ limitParams (select_limit select).
Proof.
  intros Hkeys. unfold formatSelect. cbn [params].
  rewrite select_stage, filter_stage.
  assert (Hfree : forall key,
             key <> "select" -> setLater key = true ->
             Forall (fun kv => kv.1 <> key)
               (targetParams (select_targets select)
                  ++ filterParams (select_filter select))).
  { intros key Hsel Hlater. apply Forall_app. split.
    - now apply targetParams_keys.
    - eapply Forall_impl; [exact Hkeys|]. intros kv Hkv Heq.
      cbv beta in Hkv. rewrite Heq in Hkv. congruence. }
  rewrite order_stage by (apply Hfree; [discriminate|reflexivity]).
  assert (Horder : forall key,
             key <> "order" ->
             Forall (fun kv => kv.1 <> key) (orderParams (select_sorts select))).
  { intros key Hne. destruct (select_sorts select) as [[|s l]|];
      repeat constructor. simpl. congruence. }
  rewrite limit_stage.
  - now rewrite <- !app_assoc.
  - apply Forall_app. split; [apply Hfree; [discriminate|reflexivity]|].
    apply Horder. discriminate.
  - apply Forall_app. split; [apply Hfree; [discriminate|reflexivity]|].
    apply Horder. discriminate.
Qed.


(** X16. With a column list without repetition, each object of the body of
    an INSERT maps a column other than [__proto__] at a position to the
    entry of its row at that position ([undefined] past the end of the
    row), and has no other key: none for a column that is not listed, and
    none for [__proto__].  The body has one object for each row, in
    order. *)
Theorem insert_objects_by_position insert :
  NoDup (columns insert) ->
  exists b,
    body (renderHttp (StInsert insert)) = Some b
    /\ Forall2
         (fun (o : JsObject) row =>
            (forall i col,
                columns insert !! i = Some col -> col <> "__proto__" ->
                o !! col = Some (row !! i))
            /\ (forall col, col ∉ columns insert -> o !! col = None)
            /\ o !! "__proto__" = None)
         (bodyObjects b) (values insert).
Proof.
  intros Hnd. simpl.
  set (objs := map (rowObject (columns insert)) (values insert)).
  exists (match objs with
          | [obj] => BodyObject obj
          | _ => BodyArray objs
          end).
  split; [reflexivity|].
  assert (Hobjects :
            bodyObjects (match objs with
                         | [obj] => BodyObject obj
                         | _ => BodyArray objs
                         end) = objs).
  { now destruct objs as [|o [|o' l]]. }
  subst objs.
  rewrite Hobjects. apply Forall2_fmap_l, Forall_Forall2_diag, Forall_forall.
  intros row _. repeat split.
  - intros i col Hcol Hproto. rewrite rowObject_lookup by assumption.
    now rewrite (lastIndexOf_NoDup _ _ _ Hnd Hcol).
  - intros col Hnot.
    destruct (rowObject (columns insert) row !! col) as [v|] eqn:E; [|reflexivity].
    apply rowObject_keys in E as (i & Hi & _).
    exfalso. apply Hnot. eapply list_elem_of_lookup_2, Hi.
  - now apply rowObject_proto.
Qed.

End SelectFacts.

(** * From the parse tree to the request *)

Section EndToEnd.

Context {util : RendererUtil}.
Context {WhereClause SelectStmt : Type}.
Context {imports : Imports WhereClause SelectStmt}.

Lemma processWhere_accepts kind tableName w f :
  processWhereClause w (mkRelations tableName []) = Ok f ->
  allBasic f ->
  processWhere kind tableName (Some w) = Ok (Some f).
Proof.
  intros Hlow Hall. rewrite (processWhere_lowered _ _ _ _ Hlow).
  apply allBasic_not_containsNonBasic, (validateBasicFilters_accepts kind) in Hall.
  now rewrite Hall.
Qed.

(** X17. A DELETE with a table, a WHERE clause that the walker lowers to a
    tree of basic operators and a RETURNING list that is accepted becomes a
    DELETE request without a body on the path of the table, whose query
    string is the [select] of the names kept, if any, and then one
    parameter for each root filter of the tree. *)
Theorem delete_request (stmt : DeleteStmt WhereClause) relation w f returning :
  d_relation stmt = Some relation ->
  d_whereClause stmt = Some w ->
  processWhereClause w (mkRelations (relname relation) []) = Ok f ->
  allBasic f ->
  processReturning (d_returningList stmt) = Ok returning ->
  (let* delete := processDeleteStatement stmt in Ok (renderHttp (StDelete delete)))
  = Ok {| method := DELETE;
          path := "/" +:+ relname relation;
          params := returningParams returning ++ map renderFilter (rootFilters f);
          body := None;
          fullPath :=
            get_fullPath ("/" +:+ relname relation)
              (returningParams returning ++ map renderFilter (rootFilters f)) |}.
Proof.
  intros Hrel Hw Hlow Hall Hret. unfold processDeleteStatement.
  rewrite Hrel, Hw, (processWhere_accepts _ _ _ _ Hlow Hall), Hret.
  cbn [bind renderHttp]. unfold formatDelete. cbn [delete_returning delete_filter delete_from].
  now rewrite renderFilterRoot_rootFilters, setReturning_nil.
Qed.

(** X18. An UPDATE with a table, a SET clause of constants, a WHERE clause
    that the walker lowers to a tree of basic operators and a RETURNING list
    that is accepted becomes a PATCH request on the path of the table,
    whose body is the SET mapping and whose query string is the [select] of
    the names kept, if any, and then one parameter for each root filter. *)
Theorem update_request (stmt : UpdateStmt WhereClause)
    relation targets setClause w f returning :
  u_relation stmt = Some relation ->
  u_targetList stmt = Some targets ->
  forEach setStep targets (∅, false) = Ok setClause ->
  u_whereClause stmt = Some w ->
  processWhereClause w (mkRelations (relname relation) []) = Ok f ->
  allBasic f ->
  processReturning (u_returningList stmt) = Ok returning ->
  (let* update := processUpdateStatement stmt in Ok (renderHttp (StUpdate update)))
  = Ok {| method := PATCH;
          path := "/" +:+ relname relation;
          params := returningParams returning ++ map renderFilter (rootFilters f);
          body := Some (BodyObject (Some <$> setClause.1));
          fullPath :=
            get_fullPath ("/" +:+ relname relation)
              (returningParams returning ++ map renderFilter (rootFilters f)) |}.
Proof.
  intros Hrel Htl Hset Hw Hlow Hall Hret. unfold processUpdateStatement.
  rewrite Hrel, Htl, Hset, Hw. cbn [bind].
  rewrite (processWhere_accepts _ _ _ _ Hlow Hall), Hret.
  cbn [bind renderHttp]. unfold formatUpdate.
  cbn [update_returning update_filter table set].
  now rewrite renderFilterRoot_rootFilters, setReturning_nil.
Qed.

End EndToEnd.

(** * The curl emitter *)

Lemma stripTrailingSlashes_slashes n : stripTrailingSlashes (slashes n) = "".
Proof. induction n as [|n IH]; simpl; [reflexivity|now rewrite IH]. Qed.

Lemma stripTrailingSlashes_cons c s :
  stripTrailingSlashes s <> "" ->
  stripTrailingSlashes (String c s) = String c (stripTrailingSlashes s).
Proof. simpl. now destruct (stripTrailingSlashes s). Qed.

Lemma stripTrailingSlashes_empty s :
  stripTrailingSlashes s = "" -> exists n, s = slashes n.
Proof.
  induction s as [|c s IH]; simpl; [now exists 0|].
  destruct (stripTrailingSlashes s) as [|d rest]; [|discriminate].
  destruct (Ascii.eqb_spec c "/") as [->|]; [|discriminate].
  intros _. destruct (IH eq_refl) as [n ->]. now exists (S n).
Qed.

(** X19. The base address of the curl command: the slashes at the end of
    origin and path are taken off, all of them and nothing else, so that
    what is left does not end in a slash and taking them off twice changes
    nothing. *)
Theorem stripTrailingSlashes_spec s :
  endsWithSlash (stripTrailingSlashes s) = false
  /\ (exists n, s = stripTrailingSlashes s +:+ slashes n)
  /\ stripTrailingSlashes (stripTrailingSlashes s) = stripTrailingSlashes s.
Proof.
  induction s as [|c s (IHend & (n & IHn) & IHidem)].
  - split; [reflexivity|]. split; [now exists 0|reflexivity].
  - destruct (stripTrailingSlashes s) as [|d rest] eqn:E.
    + simpl. rewrite E.
      destruct (Ascii.eqb_spec c "/") as [->|Hc].
      * split; [reflexivity|]. split; [|reflexivity].
        exists (S n). simpl in IHn. now rewrite IHn at 1.
      * split; [simpl; now destruct (Ascii.eqb_spec c "/")|]. split.
        -- exists n. simpl in IHn. now rewrite IHn at 1.
        -- simpl. now destruct (Ascii.eqb_spec c "/").
    + assert (Hne : stripTrailingSlashes s <> "") by (rewrite E; discriminate).
      rewrite (stripTrailingSlashes_cons _ _ Hne), E. split; [exact IHend|].
      split.
      * exists n. rewrite IHn at 1.
        change (String c (String d rest) +:+ slashes n)
          with (String c (String d rest +:+ slashes n)).
        reflexivity.
      * rewrite stripTrailingSlashes_cons by (rewrite IHidem; discriminate).
        now rewrite IHidem.
Qed.

Section CurlFacts.

Context {util : RendererUtil}.
Context {curl : CurlImports}.


End CurlFacts.

(** * The further properties at work *)

Lemma idIsOne_allBasic : allBasic idIsOne.
Proof.
  intros c o n v Hocc. apply occurs_column_inv in Hocc. subst o. set_solver.
Qed.

Lemma unsupported_statement_kind_witness :
  processStatement (imports := sample_imports) (OtherStmtNode "CreateStmt")
  = Err (UnsupportedError "Create statements are not supported")
  /\ processStatement (imports := sample_imports) (OtherStmtNode "Do")
     = Err (UnsupportedError "Do statements are not supported").
Proof.
  split.
  - apply (proj1 (unsupported_statement_kind (imports := sample_imports)) "Create").
  - apply (proj2 (unsupported_statement_kind (imports := sample_imports)) "Do").
    intros kind H. apply (f_equal String.length) in H.
    rewrite string_length_append in H. simpl in H. lia.
Defined.

Lemma processSql_ok_inv_witness :
  processSql (imports := sample_imports) "delete from books where id = 1"
  = Ok (StDelete (mkDelete "books" (Some idIsOne) None))
  /\ exists stmt,
       parseQuery (Imports := sample_imports) "delete from books where id = 1"
       = Parsed (mkParsedQuery [stmt])
       /\ processStatement (imports := sample_imports) stmt
          = Ok (StDelete (mkDelete "books" (Some idIsOne) None)).
Proof.
  split; [reflexivity|].
  apply (processSql_ok_inv (imports := sample_imports)). reflexivity.
Defined.

Lemma returning_names_witness :
  processReturning
    (Some [ResTarget None (ColumnRef [FString "t"; FString "id"]);
           ResTarget None (ColumnRef [FA_Star])])
  = Ok (Some ["id"])
  /\ Forall (fun name => name <> "" /\ dotFree name = true) ["id"].
Proof.
  split; [reflexivity|].
  apply (proj2 (proj2 (returning_names
                         [ResTarget None (ColumnRef [FString "t"; FString "id"]);
                          ResTarget None (ColumnRef [FA_Star])]))).
  reflexivity.
Defined.

Lemma returning_qualified_witness :
  processReturning
    (Some [qualifiedRef ["public"; "books"] "title"; qualifiedRef [] "id"])
  = Ok (Some ["title"; "id"]).
Proof.
  apply (returning_qualified [(["public"; "books"], "title"); ([], "id")]).
  repeat constructor; discriminate.
Defined.



Lemma insert_errors_witness :
  processInsertStatement (imports := sample_imports)
    (mkInsertStmt (Some (mkRangeVar "books")) None None None true)
  = Err (UnsupportedError "INSERT ... ON CONFLICT (upsert) is not supported")
  /\ exists message,
       UnsupportedError "INSERT ... ON CONFLICT (upsert) is not supported"
       = UnsupportedError message.
Proof.
  split; [reflexivity|].
  apply (insert_errors (imports := sample_imports)
           (mkInsertStmt (Some (mkRangeVar "books")) None None None true)).
  reflexivity.
Defined.

Lemma update_set_witness :
  let update := mkUpdate "books" {[ "a" := VScalar (SNumber 2) ]} None None in
  processUpdateStatement (imports := sample_imports) updateProto = Ok update
  /\ (exists v,
         constValue (mkA_Const None (Some (Some 2%Z)) None None false)
           "Unsupported constant type in UPDATE SET clause" = Ok v
         /\ set update !! "a" = Some v)
  /\ set update !! "__proto__" = None.
Proof.
  intros update.
  assert (H : processUpdateStatement (imports := sample_imports) updateProto
              = Ok update) by (vm_compute; reflexivity).
  split; [exact H|].
  pose proof (update_set (imports := sample_imports) updateProto update _ H eq_refl)
    as (_ & _ & Hlast & Hproto).
  split.
  - apply (Hlast [ResTarget (Some "__proto__") (constInteger 1)] "a" _ []);
      [discriminate|reflexivity|constructor].
  - apply Hproto. intros c Hin.
    apply elem_of_cons in Hin as [[= ->]|Hin]; [discriminate|].
    apply elem_of_cons in Hin as [[=]|Hin]. now apply elem_of_nil in Hin.
Defined.

Lemma accepted_filter_basic_witness :
  exists f,
    Some idIsOne = Some f
    /\ processWhereClause (Imports := sample_imports) idIsOne
         (mkRelations "books" []) = Ok f
    /\ allBasic f.
Proof.
  apply (proj2 (accepted_filter_basic (imports := sample_imports)) deleteBook
           (mkDelete "books" (Some idIsOne) None) eq_refl).
Defined.

Lemma update_delete_errors_witness :
  processDeleteStatement (imports := sample_imports) deleteBookReturningCount
  = Err (UnsupportedError "RETURNING clause only supports simple column names")
  /\ ((exists message,
          UnsupportedError "RETURNING clause only supports simple column names"
          = UnsupportedError message)
      \/ (exists relation w,
             d_relation deleteBookReturningCount = Some relation
             /\ d_whereClause deleteBookReturningCount = Some w
             /\ processWhereClause (Imports := sample_imports) w
                  (mkRelations (relname relation) [])
                = Err (UnsupportedError
                         "RETURNING clause only supports simple column names"))).
Proof.
  split; [reflexivity|].
  apply (proj2 (update_delete_errors (imports := sample_imports))
           deleteBookReturningCount).
  reflexivity.
Defined.

Lemma select_params_witness :
  params (formatSelect (util := spec_util) selectBooks)
  = [("select", "title,author"); ("id", "eq.1"); ("order", "title.desc");
     ("limit", "10")].
Proof.
  etransitivity.
  - apply (select_params (util := spec_util) selectBooks).
    repeat constructor.
  - reflexivity.
Defined.

Lemma insert_objects_by_position_witness :
  let row : list Value := [VScalar (SNumber 1); VScalar (SNumber 2)] in
  exists b,
    body (renderHttp (util := spec_util)
            (StInsert (mkInsert "books" ["__proto__"; "a"] [row] None))) = Some b
    /\ Forall2
         (fun (o : JsObject) row =>
            (forall i col,
                ["__proto__"; "a"] !! i = Some col -> col <> "__proto__" ->
                o !! col = Some (row !! i))
            /\ (forall col, col ∉ ["__proto__"; "a"] -> o !! col = None)
            /\ o !! "__proto__" = None)
         (bodyObjects b) [row].
Proof.
  intros row.
  apply (insert_objects_by_position (util := spec_util)
           (mkInsert "books" ["__proto__"; "a"] [row] None)).
  simpl. apply (bool_decide_unpack _). vm_compute. exact I.
Defined.

Lemma delete_request_witness :
  (let* delete := processDeleteStatement (imports := sample_imports) deleteBook in
   Ok (renderHttp (util := spec_util) (StDelete delete)))
  = Ok (mkHttpRequest DELETE "/books" [("id", "eq.1")] None "/books?id=eq.1").
Proof.
  etransitivity.
  - apply (delete_request (util := spec_util) (imports := sample_imports)
             deleteBook (mkRangeVar "books") idIsOne idIsOne None
             eq_refl eq_refl eq_refl idIsOne_allBasic eq_refl).
  - reflexivity.
Defined.

Lemma update_request_witness :
  (let* update := processUpdateStatement (imports := sample_imports) updateBook in
   Ok (renderHttp (util := spec_util) (StUpdate update)))
  = Ok (mkHttpRequest PATCH "/books" [("select", "id,year"); ("id", "eq.1")]
          (Some (BodyObject (Some <$> {[ "year" := VScalar (SNumber 2000) ]})))
          "/books?select=id,year&id=eq.1").
Proof.
  etransitivity.
  - apply (update_request (util := spec_util) (imports := sample_imports)
             updateBook (mkRangeVar "books") _
             ({[ "year" := VScalar (SNumber 2000) ]}, false)
             idIsOne idIsOne (Some ["id"; "year"])
             eq_refl eq_refl); [vm_compute; reflexivity|reflexivity|reflexivity
                                |exact idIsOne_allBasic|reflexivity].
  - reflexivity.
Defined.

(** The curl command of [delete from books where id = 1] against
    [http://localhost:3000/]. *)
Example curl_delete :
  formatCurl (curl := sample_curl) "http://localhost:3000/"
    (renderHttp (util := spec_util)
       (StDelete (mkDelete "books" (Some idIsOne) None)))
  = Ok ("curl -X DELETE http://localhost:3000/books " +:+ backslash +:+ newline
          +:+ "  -d " +:+ doubleQuote +:+ "id=eq.1" +:+ doubleQuote).
Proof. reflexivity. Qed.
